(** * terminal-ime-proxy: classifier, composition buffer and proxy supervisor

    A shallow embedding of [ime-detector.ts], [composition-buffer.ts] and
    [index.ts] (class [TerminalIMEProxy] and [main]) together with the
    properties stated about them.

    Conventions.
    - A JavaScript string is the list of its UTF-16 code units ([Z] values
      in [0, 0xFFFF]); [s.length] is [length s], a string is truthy when it
      is not the empty list, [s + t] is [s ++ t].
    - A Node [Buffer] is the list of its bytes ([Z] values in [0, 0xFF]).
    - The two sinks of the composition buffer ([onFlush], [onRegularInput])
      are recorded as a trace of emissions, in the order they are called.
    - The optional [onDebug] trace sink only formats messages for stderr
      and never touches the state; it is left out of the model. *)

From Stdlib Require Import Ascii String.
From Stdlib Require Import ZArith List Bool Lia.
From Stdlib Require Import FunInd Recdef.
Import ListNotations.

Local Open Scope Z_scope.

(* ================================================================== *)
(** ** JavaScript strings *)
(* ================================================================== *)

Module JS.

Definition code_unit := Z.
Definition jsstring := list code_unit.

(** A string literal, for characters below U+0100. *)
Fixpoint str (s : string) : jsstring :=
  match s with
  | EmptyString => []
  | String a s' => Z.of_N (N_of_ascii a) :: str s'
  end.

(** [a === b] on strings. *)
Fixpoint eqb (a b : jsstring) : bool :=
  match a, b with
  | [], [] => true
  | x :: a', y :: b' => (x =? y) && eqb a' b'
  | _, _ => false
  end.

(** Truthiness of a string: [if (s)]. *)
Definition truthy (s : jsstring) : bool :=
  match s with [] => false | _ :: _ => true end.

Definition in_range (lo hi c : Z) : bool := (lo <=? c) && (c <=? hi).

(** Leading (high) and trailing (low) surrogates. *)
Definition is_high (c : code_unit) : bool := in_range 0xD800 0xDBFF c.
Definition is_low (c : code_unit) : bool := in_range 0xDC00 0xDFFF c.
Definition is_surrogate (c : code_unit) : bool := in_range 0xD800 0xDFFF c.

(** [[...s]]: the string iterator.  It yields one string per code point:
    a leading surrogate immediately followed by a trailing one is yielded
    as a two-unit string, every other code unit (an unpaired surrogate
    included) as a one-unit string. *)
Function spread (s : jsstring) {struct s} : list jsstring :=
  match s with
  | [] => []
  | c :: rest =>
      match rest with
      | [] => [[c]]
      | d :: rest' =>
          if is_high c && is_low d
          then [c; d] :: spread rest'
          else [c] :: spread rest
      end
  end.

(** [chars.join('')]. *)
Definition join (chars : list jsstring) : jsstring := concat chars.

(** [chars.pop()], as far as the array is concerned. *)
Definition pop (chars : list jsstring) : list jsstring := removelast chars.

(** Number of code points of a string (length of its iteration). *)
Definition code_point_length (s : jsstring) : nat := length (spread s).

(** [s.isWellFormed()]: no unpaired surrogate. *)
Definition well_formed_char (ch : jsstring) : bool :=
  match ch with
  | [c] => negb (is_surrogate c)
  | _ => true
  end.

Definition isWellFormed (s : jsstring) : bool :=
  forallb well_formed_char (spread s).

(** Bytes taken by one iterated code point in UTF-8.  An unpaired
    surrogate is written as U+FFFD, three bytes. *)
Definition utf8_char_length (ch : jsstring) : Z :=
  match ch with
  | [c] => if c <? 0x80 then 1 else if c <? 0x800 then 2 else 3
  | _ => 4
  end.

(** [Buffer.byteLength(s, 'utf8')]. *)
Definition byteLength (s : jsstring) : Z :=
  fold_right (fun ch acc => utf8_char_length ch + acc) 0 (spread s).

(** [re.test(s)] for a regular expression that is one character class
    made of ranges, without the [u] flag: some code unit of [s] lies in
    one of the ranges. *)
Definition in_class (ranges : list (Z * Z)) (c : code_unit) : bool :=
  existsb (fun r => in_range (fst r) (snd r) c) ranges.

Definition test (ranges : list (Z * Z)) (s : jsstring) : bool :=
  existsb (in_class ranges) s.

(** Some code unit lies outside 7-bit ASCII. *)
Definition has_non_ascii (s : jsstring) : bool :=
  existsb (fun c => 0x80 <=? c) s.

End JS.

Import JS.

(* ================================================================== *)
(** ** ime-detector.ts *)
(* ================================================================== *)

Module Detector.

(** [UNICODE_RANGES]. *)
Definition vietnamese_precomposed : list (Z * Z) :=
  [(0x00C0, 0x00FF); (0x0102, 0x0103); (0x0110, 0x0111); (0x0128, 0x0129);
   (0x0168, 0x0169); (0x01A0, 0x01B0); (0x1EA0, 0x1EF9)].
Definition vietnamese_combining : list (Z * Z) := [(0x0300, 0x036F)].

Definition chinese_main : list (Z * Z) := [(0x4E00, 0x9FFF)].
Definition chinese_extA : list (Z * Z) := [(0x3400, 0x4DBF)].
Definition chinese_compat : list (Z * Z) := [(0xF900, 0xFAFF)].
Definition chinese_radicals : list (Z * Z) := [(0x2F00, 0x2FDF)].

Definition japanese_hiragana : list (Z * Z) := [(0x3040, 0x309F)].
Definition japanese_katakana : list (Z * Z) := [(0x30A0, 0x30FF)].
Definition japanese_katakanaExt : list (Z * Z) := [(0x31F0, 0x31FF)].
Definition japanese_halfwidth : list (Z * Z) := [(0xFF65, 0xFF9F)].

Definition korean_hangul : list (Z * Z) := [(0xAC00, 0xD7AF)].
Definition korean_jamo : list (Z * Z) := [(0x1100, 0x11FF)].
Definition korean_jamoExt : list (Z * Z) := [(0xA960, 0xA97F)].
Definition korean_compat : list (Z * Z) := [(0x3130, 0x318F)].

Definition thai : list (Z * Z) := [(0x0E00, 0x0E7F)].
Definition arabic : list (Z * Z) := [(0x0600, 0x06FF)].
Definition devanagari : list (Z * Z) := [(0x0900, 0x097F)].

Definition isVietnamese (str : jsstring) : bool :=
  test vietnamese_precomposed str || test vietnamese_combining str.

Definition isChinese (str : jsstring) : bool :=
  test chinese_main str || test chinese_extA str ||
  test chinese_compat str || test chinese_radicals str.

Definition isJapanese (str : jsstring) : bool :=
  test japanese_hiragana str || test japanese_katakana str ||
  test japanese_katakanaExt str || test japanese_halfwidth str.

Definition isKorean (str : jsstring) : bool :=
  test korean_hangul str || test korean_jamo str ||
  test korean_jamoExt str || test korean_compat str.

Definition isCJK (str : jsstring) : bool :=
  isChinese str || isJapanese str || isKorean str.

(** [Buffer.byteLength(str, 'utf8') > str.length]. *)
Definition isMultiByte (str : jsstring) : bool :=
  Z.of_nat (length str) <? byteLength str.

Definition hasCombiningMarks (str : jsstring) : bool :=
  test vietnamese_combining str.

(** The first guard of [isIMEInput]:
    [!input || (input.length === 1 && input.charCodeAt(0) < 128)]. *)
Definition empty_or_single_ascii (input : jsstring) : bool :=
  negb (truthy input) ||
  match input with
  | [c] => c <? 128
  | _ => false
  end.

Definition isIMEInput (input : jsstring) : bool :=
  if empty_or_single_ascii input then false
  else if isMultiByte input then true
  else if hasCombiningMarks input then true
  else if isVietnamese input || isCJK input then true
  else if test thai input || test arabic input || test devanagari input
       then true
  else false.

Inductive language :=
  | vietnamese | chinese | japanese | korean
  | lang_thai | lang_arabic | lang_devanagari.

Definition detectLanguage (input : jsstring) : option language :=
  if isVietnamese input then Some vietnamese
  else if isChinese input then Some chinese
  else if isJapanese input then Some japanese
  else if isKorean input then Some korean
  else if test thai input then Some lang_thai
  else if test arabic input then Some lang_arabic
  else if test devanagari input then Some lang_devanagari
  else None.

(** All the ranges [detectLanguage] tests for one language. *)
Definition script_ranges (l : language) : list (Z * Z) :=
  match l with
  | vietnamese => vietnamese_precomposed ++ vietnamese_combining
  | chinese =>
      chinese_main ++ chinese_extA ++ chinese_compat ++ chinese_radicals
  | japanese =>
      japanese_hiragana ++ japanese_katakana ++ japanese_katakanaExt
      ++ japanese_halfwidth
  | korean => korean_hangul ++ korean_jamo ++ korean_jamoExt ++ korean_compat
  | lang_thai => thai
  | lang_arabic => arabic
  | lang_devanagari => devanagari
  end.

End Detector.

Import Detector.

(* ================================================================== *)
(** ** composition-buffer.ts *)
(* ================================================================== *)

Module CompositionBuffer.

(** A pending [setTimeout]: the instant at which its callback is due. *)
Definition timer := Z.

(** The longest delay [setTimeout] takes, 2^31 - 1 ms. *)
Definition TIMEOUT_MAX : Z := 2147483647.

(** The delay [setTimeout(callback, after)] really waits: the runtime
    replaces a delay below 1 or above [TIMEOUT_MAX] by 1. *)
Definition setTimeout_delay (after : Z) : Z :=
  if (1 <=? after) && (after <=? TIMEOUT_MAX) then after else 1.

Record CompositionState := mkState {
  isComposing : bool;
  buffer : jsstring;
  lastInputTime : Z;
  flushTimer : option timer
}.

(** Calls made to the two sinks supplied at construction. *)
Inductive emission :=
  | onFlush (text : jsstring)
  | onRegularInput (text : jsstring).

Definition DEFAULT_TIMEOUT : Z := 50.

(** The state a freshly constructed buffer starts in. *)
Definition initial : CompositionState :=
  {| isComposing := false; buffer := []; lastInputTime := 0;
     flushTimer := None |}.

(** [options.compositionTimeout ?? this.DEFAULT_TIMEOUT]. *)
Definition option_compositionTimeout (o : option Z) : Z :=
  match o with Some t => t | None => DEFAULT_TIMEOUT end.

Definition set_isComposing (b : bool) (st : CompositionState) :=
  {| isComposing := b; buffer := buffer st;
     lastInputTime := lastInputTime st; flushTimer := flushTimer st |}.
Definition set_buffer (s : jsstring) (st : CompositionState) :=
  {| isComposing := isComposing st; buffer := s;
     lastInputTime := lastInputTime st; flushTimer := flushTimer st |}.
Definition set_lastInputTime (t : Z) (st : CompositionState) :=
  {| isComposing := isComposing st; buffer := buffer st;
     lastInputTime := t; flushTimer := flushTimer st |}.
Definition set_flushTimer (t : option timer) (st : CompositionState) :=
  {| isComposing := isComposing st; buffer := buffer st;
     lastInputTime := lastInputTime st; flushTimer := t |}.

(** [if (this.state.flushTimer) { clearTimeout(...);
    this.state.flushTimer = null; }] *)
Definition cancel_timer (st : CompositionState) : CompositionState :=
  match flushTimer st with
  | Some _ => set_flushTimer None st
  | None => st
  end.

Definition flush (st : CompositionState) : CompositionState * list emission :=
  let st := cancel_timer st in
  let '(st, out) :=
    if truthy (buffer st)
    then (set_buffer [] st, [onFlush (buffer st)])
    else (st, []) in
  (set_isComposing false st, out).

(** The previous timer, if any, is cleared with [clearTimeout] and its
    handle overwritten by that of a new timer whose callback is [flush]
    and which [setTimeout] arms with the delay [compositionTimeout], due
    [setTimeout_delay compositionTimeout] after the input.  The field
    [flushTimer] holds the timer armed last, or [None]. *)
Definition handleIMEInput (compositionTimeout : Z) (input : jsstring) (now : Z)
    (st : CompositionState) : CompositionState * list emission :=
  let st := set_isComposing true st in
  let st := set_buffer (buffer st ++ input) st in
  let st := set_lastInputTime now st in
  let st :=
    set_flushTimer (Some (now + setTimeout_delay compositionTimeout)) st in
  (st, []).

Definition handleRegularInput (input : jsstring)
    (st : CompositionState) : CompositionState * list emission :=
  let '(st, out) :=
    if isComposing st && truthy (buffer st) then flush st else (st, []) in
  (st, out ++ [onRegularInput input]).

(** [now] is the reading of [Date.now()] taken on entry. *)
Definition process (compositionTimeout : Z) (input : jsstring) (isIME : bool)
    (now : Z) (st : CompositionState) : CompositionState * list emission :=
  if isIME then handleIMEInput compositionTimeout input now st
  else handleRegularInput input st.

Definition clear (st : CompositionState) : CompositionState :=
  let st := cancel_timer st in
  let st := set_buffer [] st in
  set_isComposing false st.

Definition backspace (st : CompositionState) : CompositionState * bool :=
  if (0 <? length (buffer st))%nat then
    let chars := spread (buffer st) in
    let chars := pop chars in
    (set_buffer (join chars) st, true)
  else (st, false).

Definition destroy (st : CompositionState) : CompositionState :=
  cancel_timer st.

(** The callback given to [setTimeout] runs; it can only run while the
    timer is armed, and it calls [flush]. *)
Definition timer_fires (st : CompositionState)
    : CompositionState * list emission :=
  match flushTimer st with
  | Some _ => flush st
  | None => (st, [])
  end.

(** What a client of the class, or the event loop, can do to a buffer. *)
Inductive op :=
  | Process (input : jsstring) (isIME : bool) (now : Z)
  | Flush
  | Clear
  | Backspace
  | Destroy
  | TimerFires.

Definition step (compositionTimeout : Z) (o : op) (st : CompositionState)
    : CompositionState * list emission :=
  match o with
  | Process input isIME now => process compositionTimeout input isIME now st
  | Flush => flush st
  | Clear => (clear st, [])
  | Backspace => (fst (backspace st), [])
  | Destroy => (destroy st, [])
  | TimerFires => timer_fires st
  end.

(** A sequence of operations, with the trace of sink calls it produces. *)
Fixpoint run (compositionTimeout : Z) (ops : list op) (st : CompositionState)
    : CompositionState * list emission :=
  match ops with
  | [] => (st, [])
  | o :: ops' =>
      let '(st1, out1) := step compositionTimeout o st in
      let '(st2, out2) := run compositionTimeout ops' st1 in
      (st2, out1 ++ out2)
  end.

(** Texts received by each sink, in order. *)
Definition flushed_texts (out : list emission) : list jsstring :=
  flat_map (fun e => match e with onFlush t => [t] | _ => [] end) out.
Definition regular_texts (out : list emission) : list jsstring :=
  flat_map (fun e => match e with onRegularInput t => [t] | _ => [] end) out.

(** The invariant of the data model: composing iff the buffer is non-empty. *)
Definition composing_iff_nonempty (st : CompositionState) : Prop :=
  isComposing st = true <-> buffer st <> [].

(** The half of it that every operation keeps. *)
Definition nonempty_composing (st : CompositionState) : Prop :=
  buffer st <> [] -> isComposing st = true.

(** The operations after which the invariant is settled again: all but a
    backspace that removes the only code point of the buffer, and IME
    input that leaves the buffer empty. *)
Definition settles (o : op) (st : CompositionState) : Prop :=
  match o with
  | Backspace => code_point_length (buffer st) <> 1%nat
  | Process input true _ => buffer st ++ input <> []
  | _ => True
  end.

(** Everything the two sinks received, in the order of the calls. *)
Definition emission_text (e : emission) : jsstring :=
  match e with
  | onFlush text => text
  | onRegularInput text => text
  end.

Definition emitted_text (out : list emission) : jsstring :=
  concat (map emission_text out).

(** Everything given to [process], in order. *)
Definition op_input (o : op) : jsstring :=
  match o with
  | Process input _ _ => input
  | _ => []
  end.

Definition input_text (ops : list op) : jsstring :=
  concat (map op_input ops).

(** The operations that drop buffered text. *)
Definition discards (o : op) : bool :=
  match o with
  | Backspace | Clear => true
  | _ => false
  end.

(** The operations of a composition in progress: IME input and
    backspace. *)
Definition composes (o : op) : bool :=
  match o with
  | Process _ true _ | Backspace => true
  | _ => false
  end.

Definition is_Destroy (o : op) : bool :=
  match o with
  | Destroy => true
  | _ => false
  end.

(** A burst of IME input: each text with the time it arrives at. *)
Definition ime_burst (chunks : list (jsstring * Z)) : list op :=
  map (fun chunk => Process (fst chunk) true (snd chunk)) chunks.

(** [backspace] called [k] times in a row. *)
Definition backspaces (k : nat) (st : CompositionState) : CompositionState :=
  Nat.iter k (fun st => fst (backspace st)) st.

End CompositionBuffer.

(* ================================================================== *)
(** ** Node runtime: decoding a [Buffer] of bytes, [parseInt] *)
(* ================================================================== *)

Module Node.

Definition bytes := list Z.

Definition is_cont (b : Z) : bool := in_range 0x80 0xBF b.

(** One code point as UTF-16 code units. *)
Definition utf16 (cp : Z) : jsstring :=
  if cp <? 0x10000 then [cp]
  else [0xD800 + Z.shiftr (cp - 0x10000) 10;
        0xDC00 + Z.land (cp - 0x10000) 0x3FF].

(** Allowed range of the second byte after lead byte [b0]. *)
Definition second_lo (b0 : Z) : Z :=
  if b0 =? 0xE0 then 0xA0 else if b0 =? 0xF0 then 0x90 else 0x80.
Definition second_hi (b0 : Z) : Z :=
  if b0 =? 0xED then 0x9F else if b0 =? 0xF4 then 0x8F else 0xBF.

(** [buf.toString('utf8')]: UTF-8 decoding in which every ill-formed
    subsequence becomes U+FFFD and decoding resumes at the offending
    byte. *)
Fixpoint toString (data : bytes) : jsstring :=
  match data with
  | [] => []
  | b0 :: r0 =>
    if b0 <? 0x80 then b0 :: toString r0
    else if in_range 0xC2 0xDF b0 then
      match r0 with
      | [] => [0xFFFD]
      | b1 :: r1 =>
        if is_cont b1
        then (Z.shiftl (Z.land b0 0x1F) 6 + Z.land b1 0x3F) :: toString r1
        else 0xFFFD :: toString r0
      end
    else if in_range 0xE0 0xEF b0 then
      match r0 with
      | [] => [0xFFFD]
      | b1 :: r1 =>
        if in_range (second_lo b0) (second_hi b0) b1 then
          match r1 with
          | [] => [0xFFFD]
          | b2 :: r2 =>
            if is_cont b2
            then (Z.shiftl (Z.land b0 0x0F) 12 + Z.shiftl (Z.land b1 0x3F) 6
                  + Z.land b2 0x3F) :: toString r2
            else 0xFFFD :: toString r1
          end
        else 0xFFFD :: toString r0
      end
    else if in_range 0xF0 0xF4 b0 then
      match r0 with
      | [] => [0xFFFD]
      | b1 :: r1 =>
        if in_range (second_lo b0) (second_hi b0) b1 then
          match r1 with
          | [] => [0xFFFD]
          | b2 :: r2 =>
            if is_cont b2 then
              match r2 with
              | [] => [0xFFFD]
              | b3 :: r3 =>
                if is_cont b3
                then utf16 (Z.shiftl (Z.land b0 0x07) 18
                            + Z.shiftl (Z.land b1 0x3F) 12
                            + Z.shiftl (Z.land b2 0x3F) 6
                            + Z.land b3 0x3F) ++ toString r3
                else 0xFFFD :: toString r2
              end
            else 0xFFFD :: toString r1
          end
        else 0xFFFD :: toString r0
      end
    else 0xFFFD :: toString r0
  end.

(** A JavaScript number as far as [main] needs it: [NaN] or an integer.
    Integers are exact up to 2^53 in magnitude; larger ones would be
    rounded by the runtime, which this model does not do. *)
Inductive number :=
  | NaN
  | Num (n : Z).

(** [x || d] for a number [x]: [NaN], [0] and [-0] are falsy. *)
Definition or_default (x : number) (d : Z) : Z :=
  match x with
  | NaN => d
  | Num n => if n =? 0 then d else n
  end.

(** White space and line terminators skipped by [parseInt]. *)
Definition is_white_space (c : code_unit) : bool :=
  in_range 0x09 0x0D c || (c =? 0x20) || (c =? 0xA0) || (c =? 0x1680) ||
  in_range 0x2000 0x200A c || (c =? 0x2028) || (c =? 0x2029) ||
  (c =? 0x202F) || (c =? 0x205F) || (c =? 0x3000) || (c =? 0xFEFF).

Definition is_digit (c : code_unit) : bool := in_range 0x30 0x39 c.

Fixpoint trim_start (s : jsstring) : jsstring :=
  match s with
  | c :: s' => if is_white_space c then trim_start s' else s
  | [] => []
  end.

(** Longest prefix of decimal digits. *)
Fixpoint digits_prefix (s : jsstring) : jsstring :=
  match s with
  | c :: s' => if is_digit c then c :: digits_prefix s' else []
  | [] => []
  end.

(** Value of a string of decimal digits, most significant first. *)
Definition digits_value (ds : jsstring) : Z :=
  fold_left (fun acc c => 10 * acc + (c - 0x30)) ds 0.

(** [parseInt(s, 10)] on a string.  The integer is the exact one; the
    runtime answers with the nearest double, the same number as long as
    the digits are at most 15.  What is stated of a value read with it is
    stated for at most 15 digits. *)
Definition parseInt10_string (s : jsstring) : number :=
  let s := trim_start s in
  let '(sign, s) :=
    match s with
    | c :: s' =>
        if c =? 0x2D then (-1, s')
        else if c =? 0x2B then (1, s')
        else (1, s)
    | [] => (1, s)
    end in
  match digits_prefix s with
  | [] => NaN
  | ds => Num (sign * digits_value ds)
  end.

(** What [parseInt] makes of a missing argument before parsing it. *)
Definition undefined_string : jsstring := str "undefined".

(** [parseInt(x, 10)] where [x] is a string or [undefined]. *)
Definition parseInt10 (x : option jsstring) : number :=
  match x with
  | Some s => parseInt10_string s
  | None => parseInt10_string undefined_string
  end.

End Node.

(* ================================================================== *)
(** ** index.ts: class TerminalIMEProxy *)
(* ================================================================== *)

Module Proxy.

Import CompositionBuffer Node.

(** The proxy object together with the parts of the host process it drives:
    what was written to the child PTY and to stdout, the raw mode of stdin,
    and the exit code once [process.exit] was called. *)
Record TerminalIMEProxy := mkProxy {
  compositionTimeout : Z;
  compositionBuffer : CompositionState;
  isDestroyed : bool;
  pty_written : list jsstring;      (* [pty.write] calls, oldest first *)
  pty_resized : list (Z * Z);       (* [pty.resize] calls, oldest first *)
  pty_killed : bool;                (* [pty.kill] was called *)
  stdout_written : list jsstring;   (* [process.stdout.write] calls *)
  stdin_isTTY : bool;
  stdin_rawMode : bool;
  exited : option Z                 (* [process.exit(code)] *)
}.

Definition set_compositionBuffer (st : CompositionState)
    (p : TerminalIMEProxy) :=
  {| compositionTimeout := compositionTimeout p; compositionBuffer := st;
     isDestroyed := isDestroyed p; pty_written := pty_written p;
     pty_resized := pty_resized p; pty_killed := pty_killed p;
     stdout_written := stdout_written p; stdin_isTTY := stdin_isTTY p;
     stdin_rawMode := stdin_rawMode p; exited := exited p |}.
Definition set_isDestroyed (b : bool) (p : TerminalIMEProxy) :=
  {| compositionTimeout := compositionTimeout p;
     compositionBuffer := compositionBuffer p;
     isDestroyed := b; pty_written := pty_written p;
     pty_resized := pty_resized p; pty_killed := pty_killed p;
     stdout_written := stdout_written p; stdin_isTTY := stdin_isTTY p;
     stdin_rawMode := stdin_rawMode p; exited := exited p |}.
Definition set_pty_written (w : list jsstring) (p : TerminalIMEProxy) :=
  {| compositionTimeout := compositionTimeout p;
     compositionBuffer := compositionBuffer p;
     isDestroyed := isDestroyed p; pty_written := w;
     pty_resized := pty_resized p; pty_killed := pty_killed p;
     stdout_written := stdout_written p; stdin_isTTY := stdin_isTTY p;
     stdin_rawMode := stdin_rawMode p; exited := exited p |}.
Definition set_pty_resized (r : list (Z * Z)) (p : TerminalIMEProxy) :=
  {| compositionTimeout := compositionTimeout p;
     compositionBuffer := compositionBuffer p;
     isDestroyed := isDestroyed p; pty_written := pty_written p;
     pty_resized := r; pty_killed := pty_killed p;
     stdout_written := stdout_written p; stdin_isTTY := stdin_isTTY p;
     stdin_rawMode := stdin_rawMode p; exited := exited p |}.
Definition set_pty_killed (b : bool) (p : TerminalIMEProxy) :=
  {| compositionTimeout := compositionTimeout p;
     compositionBuffer := compositionBuffer p;
     isDestroyed := isDestroyed p; pty_written := pty_written p;
     pty_resized := pty_resized p; pty_killed := b;
     stdout_written := stdout_written p; stdin_isTTY := stdin_isTTY p;
     stdin_rawMode := stdin_rawMode p; exited := exited p |}.
Definition set_stdout_written (w : list jsstring) (p : TerminalIMEProxy) :=
  {| compositionTimeout := compositionTimeout p;
     compositionBuffer := compositionBuffer p;
     isDestroyed := isDestroyed p; pty_written := pty_written p;
     pty_resized := pty_resized p; pty_killed := pty_killed p;
     stdout_written := w; stdin_isTTY := stdin_isTTY p;
     stdin_rawMode := stdin_rawMode p; exited := exited p |}.
Definition set_stdin_rawMode (b : bool) (p : TerminalIMEProxy) :=
  {| compositionTimeout := compositionTimeout p;
     compositionBuffer := compositionBuffer p;
     isDestroyed := isDestroyed p; pty_written := pty_written p;
     pty_resized := pty_resized p; pty_killed := pty_killed p;
     stdout_written := stdout_written p; stdin_isTTY := stdin_isTTY p;
     stdin_rawMode := b; exited := exited p |}.
Definition set_exited (c : option Z) (p : TerminalIMEProxy) :=
  {| compositionTimeout := compositionTimeout p;
     compositionBuffer := compositionBuffer p;
     isDestroyed := isDestroyed p; pty_written := pty_written p;
     pty_resized := pty_resized p; pty_killed := pty_killed p;
     stdout_written := stdout_written p; stdin_isTTY := stdin_isTTY p;
     stdin_rawMode := stdin_rawMode p; exited := c |}.

(** The constructor, once the child is spawned: the buffer is created with
    [options.compositionTimeout ?? 50], stdin is put in raw mode when it is
    a TTY. *)
Definition construct (timeout : option Z) (isTTY : bool) : TerminalIMEProxy :=
  {| compositionTimeout :=
       option_compositionTimeout
         (Some (match timeout with Some t => t | None => 50 end));
     compositionBuffer := CompositionBuffer.initial;
     isDestroyed := false; pty_written := []; pty_resized := [];
     pty_killed := false; stdout_written := [];
     stdin_isTTY := isTTY; stdin_rawMode := isTTY; exited := None |}.

Definition sendToApp (text : jsstring) (p : TerminalIMEProxy)
    : TerminalIMEProxy :=
  if negb (isDestroyed p)
  then set_pty_written (pty_written p ++ [text]) p
  else p.

(** Both sinks of the buffer are [(text) => this.sendToApp(text)]. *)
Definition sink (e : emission) (p : TerminalIMEProxy) : TerminalIMEProxy :=
  match e with
  | onFlush text => sendToApp text p
  | onRegularInput text => sendToApp text p
  end.

Definition sinks (out : list emission) (p : TerminalIMEProxy)
    : TerminalIMEProxy :=
  fold_left (fun p e => sink e p) out p.

(** [this.compositionBuffer.flush()] with its emissions delivered. *)
Definition buffer_flush (p : TerminalIMEProxy) : TerminalIMEProxy :=
  let '(st, out) := CompositionBuffer.flush (compositionBuffer p) in
  sinks out (set_compositionBuffer st p).

Definition buffer_process (input : jsstring) (isIME : bool) (now : Z)
    (p : TerminalIMEProxy) : TerminalIMEProxy :=
  let '(st, out) :=
    CompositionBuffer.process (compositionTimeout p) input isIME now
      (compositionBuffer p) in
  sinks out (set_compositionBuffer st p).

Definition single_byte (data : bytes) (b : Z) : bool :=
  match data with
  | [b0] => b0 =? b
  | _ => false
  end.

Definition first_byte (data : bytes) (b : Z) : bool :=
  match data with
  | b0 :: _ => b0 =? b
  | [] => false
  end.

Definition flush_and_forward (data : bytes) (p : TerminalIMEProxy) :=
  sendToApp (toString data) (buffer_flush p).

(** Returns the new state and whether the chunk was consumed. *)
Definition handleSpecialKeys (data : bytes) (p : TerminalIMEProxy)
    : TerminalIMEProxy * bool :=
  if single_byte data 0x03 then (flush_and_forward data p, true)
  else if single_byte data 0x04 then (flush_and_forward data p, true)
  else if single_byte data 0x7F || single_byte data 0x08 then
    let '(st, handled) := CompositionBuffer.backspace (compositionBuffer p) in
    let p := set_compositionBuffer st p in
    (if negb handled then sendToApp (toString data) p else p, true)
  else if single_byte data 0x0D || single_byte data 0x0A then
    (flush_and_forward data p, true)
  else if first_byte data 0x1B then (flush_and_forward data p, true)
  else (p, false).

(** The ['data'] listener installed on stdin; [now] is [Date.now()]. *)
Definition on_stdin_data (data : bytes) (now : Z) (p : TerminalIMEProxy)
    : TerminalIMEProxy :=
  if isDestroyed p then p
  else
    let input := toString data in
    let '(p1, consumed) := handleSpecialKeys data p in
    if consumed then p1
    else
      let isIME := isIMEInput input in
      buffer_process input isIME now p.

(** The [pty.onData] listener. *)
Definition on_pty_data (data : jsstring) (p : TerminalIMEProxy)
    : TerminalIMEProxy :=
  if negb (isDestroyed p)
  then set_stdout_written (stdout_written p ++ [data]) p
  else p.

Definition destroy (p : TerminalIMEProxy) : TerminalIMEProxy :=
  if isDestroyed p then p
  else
    let p := set_isDestroyed true p in
    let p :=
      set_compositionBuffer
        (CompositionBuffer.destroy (compositionBuffer p)) p in
    let p := if stdin_isTTY p then set_stdin_rawMode false p else p in
    set_pty_killed true p.

(** [process.exit(code)]: the ['exit'] listener runs [destroy], then the
    process ends with [code]. *)
Definition process_exit (code : Z) (p : TerminalIMEProxy) : TerminalIMEProxy :=
  set_exited (Some code) (destroy p).

(** The [pty.onExit] listener. *)
Definition on_pty_exit (exitCode : Z) (signal : option Z)
    (p : TerminalIMEProxy) : TerminalIMEProxy :=
  process_exit exitCode (destroy p).

(** The ['SIGINT'] listener only traces. *)
Definition on_SIGINT (p : TerminalIMEProxy) : TerminalIMEProxy := p.

Definition on_SIGTERM (p : TerminalIMEProxy) : TerminalIMEProxy :=
  process_exit 0 (destroy p).

(** The ['resize'] listener; [columns] and [rows] are those of stdout. *)
Definition on_resize (columns rows : option Z) (p : TerminalIMEProxy)
    : TerminalIMEProxy :=
  if negb (isDestroyed p) then
    let cols := match columns with Some c => c | None => 80 end in
    let rows := match rows with Some r => r | None => 24 end in
    set_pty_resized (pty_resized p ++ [(cols, rows)]) p
  else p.

(** The flush timer of the buffer fires. *)
Definition on_flush_timer (p : TerminalIMEProxy) : TerminalIMEProxy :=
  let '(st, out) := CompositionBuffer.timer_fires (compositionBuffer p) in
  sinks out (set_compositionBuffer st p).

(** What can happen to a running proxy. *)
Inductive event :=
  | stdin_data (data : bytes) (now : Z)
  | flush_timer
  | pty_data (data : jsstring)
  | pty_exit (exitCode : Z) (signal : option Z)
  | SIGINT
  | SIGTERM
  | resize (columns rows : option Z)
  | call_destroy.

(** The listener an event runs. *)
Definition dispatch (e : event) (p : TerminalIMEProxy) : TerminalIMEProxy :=
  match e with
  | stdin_data data now => on_stdin_data data now p
  | flush_timer => on_flush_timer p
  | pty_data data => on_pty_data data p
  | pty_exit exitCode signal => on_pty_exit exitCode signal p
  | SIGINT => on_SIGINT p
  | SIGTERM => on_SIGTERM p
  | resize columns rows => on_resize columns rows p
  | call_destroy => destroy p
  end.

(** One turn of the event loop.  Nothing runs once the process has
    exited. *)
Definition handle (e : event) (p : TerminalIMEProxy) : TerminalIMEProxy :=
  match exited p with
  | Some _ => p
  | None => dispatch e p
  end.

Definition handle_all (es : list event) (p : TerminalIMEProxy)
    : TerminalIMEProxy :=
  fold_left (fun p e => handle e p) es p.

(** The listeners run one after the other, had the process not ended. *)
Definition dispatch_all (es : list event) (p : TerminalIMEProxy)
    : TerminalIMEProxy :=
  fold_left (fun p e => dispatch e p) es p.

(** The chunks on which [handleSpecialKeys] flushes and forwards. *)
Definition is_flush_key (data : bytes) : bool :=
  single_byte data 0x03 || single_byte data 0x04 ||
  single_byte data 0x0D || single_byte data 0x0A || first_byte data 0x1B.

Definition is_backspace_key (data : bytes) : bool :=
  single_byte data 0x7F || single_byte data 0x08.

(** A chunk that reaches the buffer as IME input. *)
Definition ime_chunk (data : bytes) : bool :=
  negb (first_byte data 0x1B) && isIMEInput (toString data).

(** What is waiting in the buffer, as the list of writes a flush makes. *)
Definition pending (p : TerminalIMEProxy) : list jsstring :=
  match buffer (compositionBuffer p) with
  | [] => []
  | _ :: _ => [buffer (compositionBuffer p)]
  end.

(** A burst of stdin chunks, each with the time it is read at. *)
Definition stdin_burst (chunks : list (bytes * Z)) : list event :=
  map (fun chunk => stdin_data (fst chunk) (snd chunk)) chunks.

(** The same burst as the buffer receives it: decoded. *)
Definition decoded (chunks : list (bytes * Z)) : list (jsstring * Z) :=
  map (fun chunk => (toString (fst chunk), snd chunk)) chunks.

(** The text of a burst, chunk by chunk. *)
Definition burst_text (chunks : list (bytes * Z)) : jsstring :=
  concat (map (fun chunk => toString (fst chunk)) chunks).

(** What holds of the host process around the proxy: the process has not
    exited without [destroy]; after [destroy] stdin is out of raw mode, the
    child is killed and no flush timer is armed; before it, stdin is in
    raw mode exactly when it is a TTY and the child has not been killed. *)
Definition teardown_safe (p : TerminalIMEProxy) : Prop :=
  (exited p <> None -> isDestroyed p = true) /\
  (isDestroyed p = true ->
   stdin_rawMode p = false /\ pty_killed p = true /\
   flushTimer (compositionBuffer p) = None) /\
  (isDestroyed p = false ->
   stdin_rawMode p = stdin_isTTY p /\ pty_killed p = false).

(** The text typed by a sequence of events: its stdin chunks, decoded. *)
Definition typed (e : event) : jsstring :=
  match e with
  | stdin_data data _ => toString data
  | _ => []
  end.

Definition typed_text (es : list event) : jsstring :=
  concat (map typed es).

(** Events that neither end the proxy nor delete typed text. *)
Definition keeps_text (e : event) : bool :=
  match e with
  | stdin_data data _ => negb (is_backspace_key data)
  | pty_exit _ _ | SIGTERM | call_destroy => false
  | _ => true
  end.

(** Events with which the proxy tears down. *)
Definition tears_down (e : event) : bool :=
  match e with
  | pty_exit _ _ | SIGTERM | call_destroy => true
  | _ => false
  end.

(** The child output of the events that come before the first teardown. *)
Fixpoint child_output (es : list event) : list jsstring :=
  match es with
  | [] => []
  | e :: es' =>
      if tears_down e then []
      else
        match e with
        | pty_data data => data :: child_output es'
        | _ => child_output es'
        end
  end.

End Proxy.

(* ================================================================== *)
(** ** index.ts: main *)
(* ================================================================== *)

Module Main.

Import Node.

Record TerminalIMEProxyOptions := mkOptions {
  command : jsstring;
  args : list jsstring;
  debug : bool;
  compositionTimeout : Z
}.

(** How the flag loop of [main] ends: by [process.exit] (help, version) or
    with the flags read and the remaining words. *)
Inductive parsed :=
  | exit_in_loop (code : Z)
  | flags (debug : bool) (timeout : Z) (commandArgs : list jsstring).

(** [parseInt(args[++i], 10) || 50]. *)
Definition timeout_value (value : option jsstring) : Z :=
  or_default (parseInt10 value) 50.

(** The [for] loop over [args]; [args] here is what is left from index [i]
    on. *)
Fixpoint parse_flags (args : list jsstring) (debug : bool) (timeout : Z)
    : parsed :=
  match args with
  | [] => flags debug timeout []
  | arg :: rest =>
      if JS.eqb arg (str "--debug") || JS.eqb arg (str "-d") then
        parse_flags rest true timeout
      else if JS.eqb arg (str "--timeout") || JS.eqb arg (str "-t") then
        match rest with
        | value :: rest' =>
            parse_flags rest' debug (timeout_value (Some value))
        | [] => flags debug (timeout_value None) []
        end
      else if JS.eqb arg (str "--help") || JS.eqb arg (str "-h") then
        exit_in_loop 0
      else if JS.eqb arg (str "--version") || JS.eqb arg (str "-v") then
        exit_in_loop 0
      else flags debug timeout (arg :: rest)
  end.

(** What [main] does with [process.argv.slice(2)]: it exits, or it
    constructs the proxy with these options. *)
Inductive outcome :=
  | Exit (code : Z)
  | Construct (options : TerminalIMEProxyOptions).

Definition main (argv : list jsstring) : outcome :=
  match parse_flags argv false 50 with
  | exit_in_loop code => Exit code
  | flags debug timeout commandArgs =>
      match commandArgs with
      | [] => Exit 1
      | command :: cmdArgs =>
          Construct {| command := command; args := cmdArgs; debug := debug;
                       compositionTimeout := timeout |}
      end
  end.

(** The life of the process: ended with an exit code, or running the
    proxy. *)
Inductive process_state :=
  | Exited (code : Z)
  | Running (p : Proxy.TerminalIMEProxy).

(** The program from its start.  [spawn_throws] tells whether [spawn] of
    node-pty throws on this command; nothing catches the exception, and a
    process that ends by an uncaught exception has exit code 1. *)
Definition start (argv : list jsstring) (spawn_throws isTTY : bool)
    : process_state :=
  match main argv with
  | Exit code => Exited code
  | Construct options =>
      if spawn_throws then Exited 1
      else Running (Proxy.construct (Some (compositionTimeout options)) isTTY)
  end.

(** The process after one more event. *)
Definition after (e : Proxy.event) (s : process_state) : process_state :=
  match s with
  | Exited code => Exited code
  | Running p =>
      let p' := Proxy.handle e p in
      match Proxy.exited p' with
      | Some code => Exited code
      | None => Running p'
      end
  end.

Definition exit_code (s : process_state) : option Z :=
  match s with
  | Exited code => Some code
  | Running _ => None
  end.

(** The composition timeout the buffer of a running proxy works with. *)
Definition effective_timeout (s : process_state) : option Z :=
  match s with
  | Exited _ => None
  | Running p => Some (Proxy.compositionTimeout p)
  end.

(** The words [main] reads as options. *)
Definition is_option (arg : jsstring) : bool :=
  existsb (JS.eqb arg)
    [str "--debug"; str "-d"; str "--timeout"; str "-t";
     str "--help"; str "-h"; str "--version"; str "-v"].

(** The wording [a valid integer number of milliseconds]: a non-empty
    string of decimal digits. *)
Definition valid_integer (value : jsstring) : bool :=
  truthy value && forallb is_digit value.

(** The integer such a string denotes, digit by digit from the right. *)
Fixpoint denotes (value : jsstring) : Z :=
  match value with
  | [] => 0
  | c :: rest => (c - 0x30) * 10 ^ Z.of_nat (length rest) + denotes rest
  end.

(** The options [main] takes before the command, as a user writes them;
    [long] tells the long spelling from the short one. *)
Inductive option_word :=
  | opt_debug (long : bool)
  | opt_timeout (long : bool) (value : jsstring).

Definition render_option (o : option_word) : list jsstring :=
  match o with
  | opt_debug long => [if long then str "--debug" else str "-d"]
  | opt_timeout long value =>
      [if long then str "--timeout" else str "-t"; value]
  end.

Definition render_options (os : list option_word) : list jsstring :=
  flat_map render_option os.

(** What the options ask for, read left to right from the defaults. *)
Fixpoint requested (os : list option_word) (debug : bool) (timeout : Z)
    : bool * Z :=
  match os with
  | [] => (debug, timeout)
  | opt_debug _ :: os' => requested os' true timeout
  | opt_timeout _ value :: os' =>
      requested os' debug (timeout_value (Some value))
  end.

End Main.

(* ================================================================== *)
(** * Properties *)
(* ================================================================== *)

Import CompositionBuffer Node.

(** ** Iterating a string by code points *)

Section Spread.

Lemma spread_pair (c d : code_unit) (rest : jsstring) :
  is_high c && is_low d = true ->
  spread (c :: d :: rest) = [c; d] :: spread rest.
Proof. intros H. rewrite spread_equation, H. reflexivity. Qed.

Lemma spread_single (c d : code_unit) (rest : jsstring) :
  is_high c && is_low d = false ->
  spread (c :: d :: rest) = [c] :: spread (d :: rest).
Proof. intros H. rewrite spread_equation, H. reflexivity. Qed.

(** Joining the iterated code points gives the string back. *)
Lemma join_spread (s : jsstring) : join (spread s) = s.
Proof.
  unfold join.
  functional induction (spread s); simpl in *; try reflexivity.
  - now rewrite IHl.
  - now rewrite IHl.
Qed.

(** Each iterated element is itself exactly one code point. *)
Lemma spread_elements (s ch : jsstring) :
  In ch (spread s) -> spread ch = [ch].
Proof.
  functional induction (spread s); simpl; intros Hin.
  - contradiction.
  - destruct Hin as [<- | []]. reflexivity.
  - destruct Hin as [<- | Hin]; [ | now apply IHl ].
    rewrite spread_pair by assumption. reflexivity.
  - destruct Hin as [<- | Hin]; [ reflexivity | now apply IHl ].
Qed.

Lemma spread_nil_inv (s : jsstring) : spread s = [] -> s = [].
Proof.
  intros H. rewrite <- (join_spread s), H. reflexivity.
Qed.

(** Any string made of all but the last iterated code points iterates to
    exactly those code points: dropping the last one never splits or
    merges the others. *)
Lemma spread_join_front (s : jsstring) :
  forall front last, spread s = front ++ [last] ->
  spread (join front) = front.
Proof.
  functional induction (spread s); intros front last Heq.
  - destruct front; discriminate.
  - destruct front as [ | y front]; [ reflexivity | ].
    destruct front; discriminate.
  - destruct front as [ | y front]; [ reflexivity | ].
    change ((y :: front) ++ [last]) with (y :: (front ++ [last])) in Heq.
    injection Heq as <- Heq.
    change (join ([c; d] :: front)) with (c :: d :: join front).
    rewrite spread_pair by assumption.
    f_equal. eapply IHl; eassumption.
  - destruct front as [ | y front]; [ reflexivity | ].
    change ((y :: front) ++ [last]) with (y :: (front ++ [last])) in Heq.
    injection Heq as <- Heq.
    change (spread (d :: rest') = front ++ [last]) in Heq.
    change (join ([c] :: front)) with (c :: join front).
    pose proof (IHl _ _ Heq) as IH.
    pose proof (join_spread (d :: rest')) as Hj.
    rewrite Heq in Hj. unfold join in Hj. rewrite concat_app in Hj.
    fold (join front) in Hj.
    destruct (join front) as [ | d' t] eqn:Hfront.
    + simpl in IH. subst front. reflexivity.
    + simpl in Hj. injection Hj as -> _.
      rewrite spread_single by assumption. now rewrite IH.
Qed.

Lemma spread_nonempty (s : jsstring) :
  s <> [] -> exists front last, spread s = front ++ [last].
Proof.
  intros Hs.
  destruct (spread s) as [ | ch chars] eqn:E.
  - apply spread_nil_inv in E. contradiction.
  - exists (removelast (ch :: chars)), (List.last (ch :: chars) []).
    apply app_removelast_last. discriminate.
Qed.

Lemma pop_snoc (front : list jsstring) (last : jsstring) :
  pop (front ++ [last]) = front.
Proof. apply removelast_last. Qed.

End Spread.

(** ** UTF-8 length against the two other lengths *)

Section ByteLength.

Lemma byteLength_cons (ch : jsstring) (chars : list jsstring) :
  fold_right (fun ch acc => utf8_char_length ch + acc) 0 (ch :: chars)
  = utf8_char_length ch
    + fold_right (fun ch acc => utf8_char_length ch + acc) 0 chars.
Proof. reflexivity. Qed.

Lemma utf8_unit_length_pos (c : code_unit) : 1 <= utf8_char_length [c].
Proof.
  simpl. destruct (c <? 128); [ lia | ]. destruct (c <? 2048); lia.
Qed.

(** The UTF-8 encoding is never shorter than the string has code units,
    and as soon as it is longer than the string has code points it is
    longer than the string has code units, too. *)
Lemma byteLength_length (s : jsstring) :
  Z.of_nat (length s) <= byteLength s /\
  (Z.of_nat (code_point_length s) < byteLength s ->
   Z.of_nat (length s) < byteLength s).
Proof.
  unfold byteLength, code_point_length.
  functional induction (spread s).
  - simpl. lia.
  - pose proof (utf8_unit_length_pos c). rewrite byteLength_cons.
    simpl fold_right at 1. simpl length. lia.
  - rewrite byteLength_cons.
    change (utf8_char_length [c; d]) with 4.
    simpl length. destruct IHl as [IH1 IH2]. lia.
  - rewrite byteLength_cons.
    pose proof (utf8_unit_length_pos c).
    change (length (c :: d :: rest')) with (S (length (d :: rest'))).
    change (length ([c] :: spread (d :: rest')))
      with (S (length (spread (d :: rest')))).
    destruct IHl as [IH1 IH2]. lia.
Qed.

Lemma utf8_unit_length_nonascii (c : code_unit) :
  0x80 <= c -> 2 <= utf8_char_length [c].
Proof.
  intros H. simpl.
  destruct (c <? 128) eqn:E; [ apply Z.ltb_lt in E; lia | ].
  destruct (c <? 2048); lia.
Qed.

(** One code unit outside ASCII makes the UTF-8 encoding longer than the
    string. *)
Lemma byteLength_nonascii (s : jsstring) (c : code_unit) :
  In c s -> 0x80 <= c -> Z.of_nat (length s) < byteLength s.
Proof.
  intros Hin Hc. revert Hin. unfold byteLength.
  functional induction (spread s); intros Hin.
  - contradiction.
  - destruct Hin as [<- | []].
    pose proof (utf8_unit_length_nonascii _ Hc). rewrite byteLength_cons.
    simpl fold_right at 1. simpl length. lia.
  - rewrite byteLength_cons. change (utf8_char_length [c0; d]) with 4.
    destruct (byteLength_length rest') as [Hle _].
    unfold byteLength in Hle. simpl length. lia.
  - rewrite byteLength_cons.
    pose proof (utf8_unit_length_pos c0).
    change (length (c0 :: d :: rest')) with (S (length (d :: rest'))).
    destruct Hin as [<- | Hin].
    + pose proof (utf8_unit_length_nonascii _ Hc).
      destruct (byteLength_length (d :: rest')) as [Hle _].
      unfold byteLength in Hle. lia.
    + specialize (IHl Hin). lia.
Qed.

End ByteLength.

(** ** The classifier *)

Section Classifier.

(** Past its first guard [isIMEInput] answers yes to any string that
    [isMultiByte] accepts. *)
Lemma isIMEInput_multibyte (input : jsstring) :
  empty_or_single_ascii input = false ->
  Z.of_nat (length input) < byteLength input ->
  isIMEInput input = true.
Proof.
  intros Hguard Hlen. unfold isIMEInput, isMultiByte.
  apply Z.ltb_lt in Hlen. now rewrite Hguard, Hlen.
Qed.

End Classifier.

(** C4. A non-empty string whose UTF-8 byte length exceeds its number of
    code points, and so any string with a code unit outside 7-bit ASCII,
    is classified as IME input; the empty string and a string of one
    ASCII character are classified as regular input. *)
Theorem isIMEInput_classifies :
  (forall input : jsstring,
      input <> [] ->
      Z.of_nat (code_point_length input) < byteLength input ->
      isIMEInput input = true) /\
  (forall (input : jsstring) (c : code_unit),
      In c input -> 0x80 <= c ->
      isIMEInput input = true) /\
  (forall input : jsstring,
      input = [] \/ (exists c, input = [c] /\ c < 0x80) ->
      isIMEInput input = false).
Proof.
  repeat apply conj.
  - intros input Hne Hlen.
    destruct (byteLength_length input) as [_ Hmulti].
    apply isIMEInput_multibyte; [ | now apply Hmulti ].
    unfold empty_or_single_ascii.
    destruct input as [ | c [ | d rest]]; [ contradiction | | reflexivity ].
    simpl. unfold byteLength, code_point_length in Hlen. simpl in Hlen.
    destruct (c <? 128) eqn:E; [ simpl in Hlen; lia | reflexivity ].
  - intros input c Hin Hc.
    apply isIMEInput_multibyte; [ | now apply byteLength_nonascii with c ].
    unfold empty_or_single_ascii.
    destruct input as [ | c0 [ | d rest]]; [ contradiction | | reflexivity ].
    destruct Hin as [<- | []]. simpl. apply Z.ltb_ge. lia.
  - intros input [-> | (c & -> & Hc)].
    + reflexivity.
    + unfold isIMEInput, empty_or_single_ascii. simpl.
      apply Z.ltb_lt in Hc. now rewrite Hc.
Qed.

Lemma isIMEInput_classifies_witness :
  isIMEInput [0x4E2D] = true /\
  isIMEInput [0x63; 0x68; 0xE0; 0x6F] = true /\
  isIMEInput [0x61] = false.
Proof.
  destruct isIMEInput_classifies as (Hime & Hunit & Hregular).
  repeat apply conj.
  - apply Hime; [ discriminate | vm_compute; reflexivity ].
  - apply (Hunit _ 0xE0); [ simpl; tauto | lia ].
  - apply Hregular. right. exists 0x61. split; [ reflexivity | lia ].
Defined.

(** ** The composition buffer *)

Section BufferFacts.

Variable compositionTimeout : Z.

Lemma nonempty_length (s : jsstring) :
  s <> [] -> (0 <? length s)%nat = true.
Proof. destruct s; [ contradiction | reflexivity ]. Qed.

Lemma truthy_nonempty (s : jsstring) : truthy s = true <-> s <> [].
Proof. destruct s; simpl; split; (congruence || discriminate). Qed.

Lemma backspace_empty (st : CompositionState) :
  buffer st = [] -> backspace st = (st, false).
Proof. intros H. unfold backspace. rewrite H. reflexivity. Qed.

Lemma backspace_nonempty (st : CompositionState) (front : list jsstring)
    (last : jsstring) :
  spread (buffer st) = front ++ [last] ->
  backspace st = (set_buffer (join front) st, true).
Proof.
  intros H. unfold backspace.
  assert (Hne : buffer st <> []).
  { intros E. rewrite E in H. destruct front; discriminate. }
  rewrite (nonempty_length _ Hne), H, pop_snoc. reflexivity.
Qed.

Lemma flush_state (st : CompositionState) :
  fst (flush st) =
  {| isComposing := false; buffer := [];
     lastInputTime := lastInputTime st; flushTimer := None |}.
Proof.
  unfold flush, cancel_timer.
  destruct st as [c b t [tm | ]]; destruct b; reflexivity.
Qed.

Lemma flush_emits (st : CompositionState) :
  snd (flush st) =
  match buffer st with [] => [] | _ :: _ => [onFlush (buffer st)] end.
Proof.
  unfold flush, cancel_timer.
  destruct st as [c b t [tm | ]]; destruct b; reflexivity.
Qed.

End BufferFacts.

(** The two cases of [backspace]: nothing to remove, or the last iterated
    code point dropped and the others joined again. *)
Lemma backspace_cases (st : CompositionState) :
  (buffer st = [] /\ backspace st = (st, false)) \/
  (exists front last,
      spread (buffer st) = front ++ [last] /\
      backspace st = (set_buffer (join front) st, true) /\
      spread (join front) = front).
Proof.
  destruct (buffer st) eqn:Hb.
  - left. split; [ reflexivity | now apply backspace_empty ].
  - right.
    destruct (spread_nonempty (buffer st)) as (front & last & Hsp).
    { rewrite Hb. discriminate. }
    rewrite <- Hb. exists front, last.
    split; [ exact Hsp | split ].
    + now apply backspace_nonempty with last.
    + now apply spread_join_front with (buffer st) last.
Qed.

(** C3. On an empty buffer [backspace] returns false and changes nothing.
    On a non-empty buffer it returns true and the new buffer is the old
    one without its last code point [last], removed whole: the code points
    of the old buffer are those of the new one followed by [last], there
    is exactly one code point less, and a buffer without unpaired
    surrogates (one that UTF-8 encodes as it is) stays so. *)
Theorem backspace_removes_last_code_point (st : CompositionState) :
  (buffer st = [] -> backspace st = (st, false)) /\
  (buffer st <> [] ->
   exists last : jsstring,
     snd (backspace st) = true /\
     spread last = [last] /\
     buffer st = buffer (fst (backspace st)) ++ last /\
     spread (buffer st) = spread (buffer (fst (backspace st))) ++ [last] /\
     S (code_point_length (buffer (fst (backspace st))))
       = code_point_length (buffer st) /\
     (isWellFormed (buffer st) = true ->
      isWellFormed (buffer (fst (backspace st))) = true)).
Proof.
  destruct (backspace_cases st)
      as [[Hb Hbs] | (front & last & Hsp & Hbs & Hfront)];
    rewrite Hbs; split; try (intros; reflexivity || contradiction).
  - intros Hnil. rewrite Hnil in Hsp. destruct front; discriminate.
  - intros _. exists last. cbn [fst snd set_buffer buffer].
    repeat split.
    + apply (spread_elements (buffer st)). rewrite Hsp.
      apply in_or_app. right. now left.
    + rewrite <- (join_spread (buffer st)) at 1. rewrite Hsp.
      unfold join. rewrite concat_app. simpl. now rewrite app_nil_r.
    + now rewrite Hfront.
    + unfold code_point_length. rewrite Hfront, Hsp, length_app. simpl. lia.
    + unfold isWellFormed. rewrite Hfront, Hsp, forallb_app.
      intros H. apply andb_true_iff in H. tauto.
Qed.

Lemma backspace_removes_last_code_point_witness :
  S (code_point_length
       (buffer (fst (backspace
                       (mkState true [0x61; 0xD83D; 0xDE00] 0 (Some 50))))))
    = code_point_length [0x61; 0xD83D; 0xDE00] /\
  backspace (mkState false [] 0 None) = (mkState false [] 0 None, false).
Proof.
  split.
  - destruct (backspace_removes_last_code_point
                (mkState true [0x61; 0xD83D; 0xDE00] 0 (Some 50)))
      as [_ H].
    destruct H as (last & _ & _ & _ & _ & Hcount & _); [ discriminate | ].
    exact Hcount.
  - apply (backspace_removes_last_code_point (mkState false [] 0 None)).
    reflexivity.
Defined.

(** C9. [backspace] changes the buffer field only: the state it leaves is
    the one it found with a new buffer, so the composing flag, the time of
    the last input and the armed flush timer are what they were, whatever
    the buffer held. *)
Theorem backspace_frame (st : CompositionState) :
  fst (backspace st) = set_buffer (buffer (fst (backspace st))) st /\
  isComposing (fst (backspace st)) = isComposing st /\
  lastInputTime (fst (backspace st)) = lastInputTime st /\
  flushTimer (fst (backspace st)) = flushTimer st.
Proof.
  destruct (backspace_cases st) as [[Hb Hbs] | (front & last & _ & Hbs & _)];
    rewrite Hbs; cbn [fst]; repeat split.
  now destruct st.
Qed.

(** ** The invariant between the composing flag and the buffer *)

Section Invariant.

Variable compositionTimeout : Z.

Lemma step_nonempty_composing (o : op) (st : CompositionState) :
  nonempty_composing st ->
  nonempty_composing (fst (step compositionTimeout o st)).
Proof.
  unfold nonempty_composing. intros Hinv.
  destruct o as [input [ | ] now | | | | | ]; simpl.
  - reflexivity.
  - unfold handleRegularInput.
    destruct (isComposing st && truthy (buffer st)) eqn:E.
    + pose proof (flush_state st) as Hf.
      destruct (flush st) as [st' out]. simpl in *. subst st'.
      simpl. congruence.
    + simpl. exact Hinv.
  - rewrite flush_state. simpl. congruence.
  - unfold clear. simpl. congruence.
  - destruct (backspace_cases st)
      as [[Hb Hbs] | (front & last & Hsp & Hbs & _)];
      rewrite Hbs; cbn [fst]; [ exact Hinv | ].
    intros _. apply Hinv. intros Hempty. rewrite Hempty in Hsp.
    destruct front; discriminate.
  - unfold destroy, cancel_timer. destruct (flushTimer st); exact Hinv.
  - unfold timer_fires. destruct (flushTimer st); [ | exact Hinv ].
    rewrite flush_state. simpl. congruence.
Qed.

Lemma run_nonempty_composing (ops : list op) :
  forall st, nonempty_composing st ->
  nonempty_composing (fst (run compositionTimeout ops st)).
Proof.
  induction ops as [ | o ops IH]; intros st Hinv; simpl.
  - exact Hinv.
  - pose proof (step_nonempty_composing o st Hinv) as Hstep.
    destruct (step compositionTimeout o st) as [st1 out1].
    specialize (IH st1 Hstep).
    destruct (run compositionTimeout ops st1) as [st2 out2].
    exact IH.
Qed.

Lemma step_settles (o : op) (st : CompositionState) :
  composing_iff_nonempty st -> settles o st ->
  composing_iff_nonempty (fst (step compositionTimeout o st)).
Proof.
  unfold composing_iff_nonempty. intros Hinv Hset.
  destruct o as [input [ | ] now | | | | | ]; simpl in *.
  - tauto.
  - unfold handleRegularInput.
    destruct (isComposing st && truthy (buffer st)) eqn:E.
    + pose proof (flush_state st) as Hf.
      destruct (flush st) as [st' out]. simpl in *. subst st'.
      simpl. split; congruence.
    + simpl. exact Hinv.
  - rewrite flush_state. simpl. split; congruence.
  - split; congruence.
  - destruct (backspace_cases st)
      as [[Hb Hbs] | (front & last & Hsp & Hbs & Hfront)];
      rewrite Hbs; cbn [fst]; [ exact Hinv | ].
    assert (Hne : buffer st <> []).
    { intros E. rewrite E in Hsp. destruct front; discriminate. }
    split; [ | intros _; now apply Hinv ].
    intros _ Hnil. cbn [set_buffer buffer] in Hnil.
    rewrite Hnil in Hfront. apply Hset.
    unfold code_point_length. rewrite Hsp, <- Hfront. reflexivity.
  - unfold destroy, cancel_timer. destruct (flushTimer st); exact Hinv.
  - unfold timer_fires. destruct (flushTimer st); [ | exact Hinv ].
    rewrite flush_state. simpl. split; congruence.
Qed.

End Invariant.

(** C1, as the code has it.  In every state reached from the initial one a
    non-empty buffer means composing.  [flush] and [clear] leave the flag
    false and the buffer empty.  The full equivalence is kept by
    every operation except a [backspace] that removes the only code point
    (and IME input that leaves the buffer empty): such a [backspace]
    empties the buffer and leaves the flag as it was. *)
Theorem composing_invariant (compositionTimeout : Z) :
  (forall ops : list op,
      buffer (fst (run compositionTimeout ops initial)) <> [] ->
      isComposing (fst (run compositionTimeout ops initial))
        = true) /\
  (forall st : CompositionState,
      isComposing (fst (flush st)) = false /\ buffer (fst (flush st)) = []) /\
  (forall st : CompositionState,
      isComposing (clear st) = false /\ buffer (clear st) = []) /\
  (forall (o : op) (st : CompositionState),
      composing_iff_nonempty st -> settles o st ->
      composing_iff_nonempty (fst (step compositionTimeout o st))) /\
  (forall st : CompositionState,
      code_point_length (buffer st) = 1%nat ->
      buffer (fst (backspace st)) = [] /\
      isComposing (fst (backspace st)) = isComposing st).
Proof.
  repeat apply conj.
  - intros ops.
    apply (run_nonempty_composing compositionTimeout ops initial).
    intros H. now contradiction H.
  - intros st. rewrite flush_state. split; reflexivity.
  - intros st. split; reflexivity.
  - apply step_settles.
  - intros st Hone.
    destruct (backspace_cases st)
      as [[Hb Hbs] | (front & last & Hsp & Hbs & _)];
      rewrite Hbs; cbn [fst set_buffer buffer isComposing].
    + split; [ exact Hb | reflexivity ].
    + split; [ | reflexivity ].
      unfold code_point_length in Hone. rewrite Hsp, length_app in Hone.
      destruct front; [ reflexivity | simpl in Hone; lia ].
Qed.

Lemma composing_invariant_witness :
  composing_iff_nonempty
    (fst (step 50 Backspace (mkState true [0x61; 0x62] 0 (Some 50)))) /\
  buffer (fst (backspace (mkState true [0xF1] 0 (Some 50)))) = [].
Proof.
  destruct (composing_invariant 50) as (_ & _ & _ & Hstep & Hlast). split.
  - apply Hstep.
    + split; [ discriminate | reflexivity ].
    + vm_compute. discriminate.
  - apply Hlast. reflexivity.
Defined.

(** C1 as stated fails: IME input of one code point followed by
    [backspace] leaves the buffer empty and the flag set; so does IME
    input of the empty string. *)
Lemma composing_invariant_counterexample :
  ~ composing_iff_nonempty
      (fst (run 50 [Process [0xF1] true 0; Backspace] initial)) /\
  ~ composing_iff_nonempty
      (fst (run 50 [Process [] true 0] initial)).
Proof.
  unfold composing_iff_nonempty. vm_compute.
  split; intros [H _]; now apply H.
Qed.

(** ** Regular input *)

Section RegularInput.

Variable compositionTimeout : Z.

Lemma handleRegularInput_flushes (input : jsstring) (st : CompositionState) :
  isComposing st = true -> buffer st <> [] ->
  handleRegularInput input st
  = (fst (flush st), snd (flush st) ++ [onRegularInput input]).
Proof.
  intros Hc Hb. unfold handleRegularInput.
  apply truthy_nonempty in Hb. rewrite Hc, Hb. simpl.
  now destruct (flush st).
Qed.

Lemma handleRegularInput_passes (input : jsstring) (st : CompositionState) :
  isComposing st = false \/ buffer st = [] ->
  handleRegularInput input st = (st, [onRegularInput input]).
Proof.
  intros H. unfold handleRegularInput.
  assert (E : isComposing st && truthy (buffer st) = false).
  { destruct H as [-> | ->]; [ reflexivity | apply andb_false_r ]. }
  rewrite E. reflexivity.
Qed.

Lemma regular_texts_app (out1 out2 : list emission) :
  regular_texts (out1 ++ out2) = regular_texts out1 ++ regular_texts out2.
Proof. apply flat_map_app. Qed.

Lemma flushed_texts_app (out1 out2 : list emission) :
  flushed_texts (out1 ++ out2) = flushed_texts out1 ++ flushed_texts out2.
Proof. apply flat_map_app. Qed.

Lemma flush_no_regular (st : CompositionState) :
  regular_texts (snd (flush st)) = [].
Proof. rewrite flush_emits. now destruct (buffer st). Qed.

End RegularInput.

(** C2, as the code has it.  [process(text, false)] calls [flush] first
    exactly when the flag is set and the buffer is non-empty: the buffered
    text goes to the flush sink, the timer is cancelled, the flag reset,
    and then [text] goes to the regular-input sink.  Otherwise, also when
    the flag is set over an empty buffer, the state is left as it is and
    only [text] is emitted.  In every case the regular-input sink receives
    [text], once, as the last emission. *)
Theorem process_regular_input (compositionTimeout : Z) (text : jsstring)
    (now : Z) (st : CompositionState) :
  (isComposing st = true -> buffer st <> [] ->
   process compositionTimeout text false now st
   = (fst (flush st), snd (flush st) ++ [onRegularInput text]) /\
   process compositionTimeout text false now st
   = ({| isComposing := false; buffer := [];
         lastInputTime := lastInputTime st; flushTimer := None |},
      [onFlush (buffer st); onRegularInput text])) /\
  (isComposing st = false \/ buffer st = [] ->
   process compositionTimeout text false now st
   = (st, [onRegularInput text])) /\
  regular_texts (snd (process compositionTimeout text false now st)) = [text] /\
  List.last (snd (process compositionTimeout text false now st))
    (onFlush []) = onRegularInput text.
Proof.
  cbn [process].
  assert (Hflush : isComposing st = true -> buffer st <> [] ->
    handleRegularInput text st
    = ({| isComposing := false; buffer := [];
          lastInputTime := lastInputTime st; flushTimer := None |},
       [onFlush (buffer st); onRegularInput text])).
  { intros Hc Hb. rewrite handleRegularInput_flushes by assumption.
    rewrite flush_state, flush_emits.
    destruct (buffer st); [ contradiction | reflexivity ]. }
  split; [ | split ].
  - intros Hc Hb. split; [ now apply handleRegularInput_flushes | auto ].
  - apply handleRegularInput_passes.
  - destruct (isComposing st) eqn:Hc; [ destruct (buffer st) eqn:Hb | ].
    + rewrite handleRegularInput_passes by now right. split; reflexivity.
    + rewrite Hflush; [ | reflexivity | discriminate ].
      split; reflexivity.
    + rewrite handleRegularInput_passes by now left. split; reflexivity.
Qed.

Lemma process_regular_input_witness :
  process 50 [0x62] false 10 (mkState true [0x3042] 5 (Some 55))
  = (mkState false [] 5 None, [onFlush [0x3042]; onRegularInput [0x62]]) /\
  process 50 [0x62] false 10 (mkState true [] 5 (Some 55))
  = (mkState true [] 5 (Some 55), [onRegularInput [0x62]]).
Proof.
  split.
  - apply (process_regular_input 50 [0x62] 10
             (mkState true [0x3042] 5 (Some 55)));
      [ reflexivity | discriminate ].
  - apply (process_regular_input 50 [0x62] 10
             (mkState true [] 5 (Some 55))).
    right. reflexivity.
Defined.

(** C2 as stated fails: after IME input and a [backspace] that empties the
    buffer the flag is set, yet regular input does not call [flush]: the
    flag stays set and the timer armed. *)
Lemma process_regular_input_counterexample :
  fst (run 50 [Process [0xF1] true 0; Backspace] initial)
    = mkState true [] 0 (Some 50) /\
  isComposing (mkState true [] 0 (Some 50)) = true /\
  fst (process 50 [0x61] false 7 (mkState true [] 0 (Some 50)))
    <> fst (flush (mkState true [] 0 (Some 50))).
Proof.
  split; [ reflexivity | split; [ reflexivity | ] ].
  vm_compute. discriminate.
Qed.

(** ** The flush sink *)

Section FlushSink.

Variable compositionTimeout : Z.

Lemma flush_nonempty (st : CompositionState) :
  Forall (fun text => text <> []) (flushed_texts (snd (flush st))).
Proof.
  rewrite flush_emits. destruct (buffer st) eqn:Hb; simpl.
  - constructor.
  - constructor; [ discriminate | constructor ].
Qed.

Lemma step_flush_nonempty (o : op) (st : CompositionState) :
  Forall (fun text => text <> [])
    (flushed_texts (snd (step compositionTimeout o st))).
Proof.
  destruct o as [input [ | ] now | | | | | ]; simpl; try constructor.
  - unfold handleRegularInput.
    destruct (isComposing st && truthy (buffer st)).
    + pose proof (flush_nonempty st) as H.
      destruct (flush st) as [st' out]. simpl in *.
      rewrite flushed_texts_app. apply Forall_app. split; [ exact H | ].
      constructor.
    + constructor.
  - apply flush_nonempty.
  - unfold timer_fires. destruct (flushTimer st).
    + apply flush_nonempty.
    + constructor.
Qed.

End FlushSink.

(** C8. Whatever the state and the sequence of operations (input of either
    kind, explicit flush, the timer firing, backspace, clear, destroy),
    every text handed to the flush sink is non-empty. *)
Theorem onFlush_never_empty (compositionTimeout : Z) (ops : list op)
    (st : CompositionState) :
  Forall (fun text => text <> [])
    (flushed_texts (snd (run compositionTimeout ops st))).
Proof.
  revert st. induction ops as [ | o ops IH]; intros st; simpl.
  - constructor.
  - pose proof (step_flush_nonempty compositionTimeout o st) as Hstep.
    destruct (step compositionTimeout o st) as [st1 out1].
    specialize (IH st1).
    destruct (run compositionTimeout ops st1) as [st2 out2].
    simpl in *. rewrite flushed_texts_app. apply Forall_app. now split.
Qed.

(** ** The proxy *)

Import Proxy.

Section ProxyFacts.

Lemma toString_ascii (b : Z) : b < 0x80 -> toString [b] = [b].
Proof. intros H. apply Z.ltb_lt in H. simpl. now rewrite H. Qed.

Lemma sendToApp_destroyed (text : jsstring) (p : TerminalIMEProxy) :
  isDestroyed p = true -> sendToApp text p = p.
Proof. intros H. unfold sendToApp. now rewrite H. Qed.

Lemma sinks_destroyed (out : list emission) (p : TerminalIMEProxy) :
  isDestroyed p = true -> sinks out p = p.
Proof.
  intros H. unfold sinks. induction out as [ | e out IH]; simpl.
  - reflexivity.
  - destruct e; simpl; rewrite sendToApp_destroyed; assumption.
Qed.

Lemma destroy_destroyed (p : TerminalIMEProxy) :
  isDestroyed p = true -> destroy p = p.
Proof. intros H. unfold destroy. now rewrite H. Qed.

Lemma isDestroyed_destroy (p : TerminalIMEProxy) :
  isDestroyed (destroy p) = true.
Proof.
  unfold destroy. destruct (isDestroyed p) eqn:E; [ exact E | ].
  simpl. now destruct (stdin_isTTY p).
Qed.

Lemma destroy_writes_nothing (p : TerminalIMEProxy) :
  pty_written (destroy p) = pty_written p /\
  stdout_written (destroy p) = stdout_written p.
Proof.
  unfold destroy. destruct (isDestroyed p); [ now split | ].
  simpl. now destruct (stdin_isTTY p).
Qed.

(** A destroyed proxy stays destroyed and writes nothing, whatever the
    listener that runs. *)
Lemma dispatch_destroyed (e : event) (p : TerminalIMEProxy) :
  isDestroyed p = true ->
  isDestroyed (dispatch e p) = true /\
  pty_written (dispatch e p) = pty_written p /\
  stdout_written (dispatch e p) = stdout_written p.
Proof.
  intros H. destruct e; simpl.
  - unfold on_stdin_data. rewrite H. now repeat split.
  - unfold on_flush_timer.
    destruct (timer_fires (compositionBuffer p)) as [st out].
    rewrite sinks_destroyed by exact H. now repeat split.
  - unfold on_pty_data. rewrite H. now repeat split.
  - unfold on_pty_exit, process_exit.
    rewrite !(destroy_destroyed p H). now repeat split.
  - now repeat split.
  - unfold on_SIGTERM, process_exit.
    rewrite !(destroy_destroyed p H). now repeat split.
  - unfold on_resize. rewrite H. now repeat split.
  - rewrite destroy_destroyed by exact H. now repeat split.
Qed.

Lemma handle_destroyed (e : event) (p : TerminalIMEProxy) :
  isDestroyed p = true ->
  isDestroyed (handle e p) = true /\
  pty_written (handle e p) = pty_written p /\
  stdout_written (handle e p) = stdout_written p.
Proof.
  intros H. unfold handle.
  destruct (exited p); [ now repeat split | now apply dispatch_destroyed ].
Qed.

(** The same along any sequence of steps [f] that each keep it so. *)
Lemma fold_destroyed (f : event -> TerminalIMEProxy -> TerminalIMEProxy) :
  (forall e p, isDestroyed p = true ->
     isDestroyed (f e p) = true /\
     pty_written (f e p) = pty_written p /\
     stdout_written (f e p) = stdout_written p) ->
  forall (es : list event) (p : TerminalIMEProxy),
  isDestroyed p = true ->
  isDestroyed (fold_left (fun p e => f e p) es p) = true /\
  pty_written (fold_left (fun p e => f e p) es p) = pty_written p /\
  stdout_written (fold_left (fun p e => f e p) es p) = stdout_written p.
Proof.
  intros Hf es. induction es as [ | e es IH]; intros p H; simpl.
  - now repeat split.
  - destruct (Hf e p H) as (Hd & Hpty & Hout).
    destruct (IH _ Hd) as (Hd' & Hpty' & Hout').
    rewrite <- Hpty, <- Hout. now repeat split.
Qed.

End ProxyFacts.

(** C5. On a chunk that is the single byte 0x7F or 0x08 the proxy calls
    [backspace] on its buffer and nothing else changes except that the
    byte is written to the child when, and only when, [backspace] returned
    false, which is when the buffer was empty. *)
Theorem backspace_key_routing (p : TerminalIMEProxy) (b now : Z) :
  isDestroyed p = false ->
  b = 0x7F \/ b = 0x08 ->
  compositionBuffer (on_stdin_data [b] now p)
    = fst (backspace (compositionBuffer p)) /\
  pty_written (on_stdin_data [b] now p)
    = pty_written p ++
      (if snd (backspace (compositionBuffer p)) then [] else [[b]]) /\
  (snd (backspace (compositionBuffer p)) = false
   <-> buffer (compositionBuffer p) = []) /\
  stdout_written (on_stdin_data [b] now p) = stdout_written p /\
  isDestroyed (on_stdin_data [b] now p) = false.
Proof.
  intros Hd Hb.
  assert (Hkeys : handleSpecialKeys [b] p =
    (let '(st, handled) := backspace (compositionBuffer p) in
     let p' := set_compositionBuffer st p in
     (if negb handled then sendToApp [b] p' else p', true))).
  { destruct Hb as [-> | ->]; reflexivity. }
  unfold on_stdin_data. rewrite Hd, Hkeys.
  destruct (backspace_cases (compositionBuffer p))
    as [[Hnil Hbs] | (front & last & Hsp & Hbs & _)]; rewrite Hbs.
  - cbn [negb fst snd]. unfold sendToApp. cbn. rewrite Hd. cbn.
    repeat split; auto.
  - cbn. rewrite app_nil_r. repeat split; auto; try discriminate.
    intros Hnil. rewrite Hnil in Hsp. destruct front; discriminate.
Qed.

Lemma backspace_key_routing_witness :
  pty_written (on_stdin_data [0x7F] 5 (construct None true)) = [[0x7F]].
Proof.
  apply (backspace_key_routing (construct None true) 0x7F 5);
    [ reflexivity | left; reflexivity ].
Defined.

(** C10. Once [destroy] has run, whatever events follow (stdin chunks, the
    flush timer, child output, resizes, signals, the exit of the child),
    and even if the listeners went on running after the process has
    ended, the writes made to the child PTY and to stdout are those made
    before; whatever the buffer emits is dropped by [sendToApp]; and
    [destroy] again changes nothing. *)
Theorem destroyed_proxy_is_silent (p : TerminalIMEProxy) (es : list event) :
  pty_written (handle_all es (destroy p)) = pty_written p /\
  stdout_written (handle_all es (destroy p)) = stdout_written p /\
  isDestroyed (handle_all es (destroy p)) = true /\
  pty_written (dispatch_all es (destroy p)) = pty_written p /\
  stdout_written (dispatch_all es (destroy p)) = stdout_written p /\
  isDestroyed (dispatch_all es (destroy p)) = true /\
  (forall out : list emission, sinks out (destroy p) = destroy p) /\
  (forall data now, on_stdin_data data now (destroy p) = destroy p) /\
  (forall data, on_pty_data data (destroy p) = destroy p) /\
  destroy (destroy p) = destroy p.
Proof.
  pose proof (isDestroyed_destroy p) as Hd.
  destruct (fold_destroyed handle handle_destroyed es _ Hd)
    as (Hd1 & Hpty1 & Hout1).
  destruct (fold_destroyed dispatch dispatch_destroyed es _ Hd)
    as (Hd2 & Hpty2 & Hout2).
  destruct (destroy_writes_nothing p) as (Hpty0 & Hout0).
  unfold handle_all, dispatch_all.
  repeat split; try congruence.
  - intros out. now apply sinks_destroyed.
  - intros data now. unfold on_stdin_data. now rewrite Hd.
  - intros data. unfold on_pty_data. now rewrite Hd.
  - now apply destroy_destroyed.
Qed.

(** ** The command line and the exit code *)

Import Main.

Section ExitCode.

Lemma exited_process_exit (code : Z) (p : TerminalIMEProxy) :
  exited (process_exit code p) = Some code.
Proof. reflexivity. Qed.

Lemma after_exit (e : event) (p : TerminalIMEProxy) (code : Z) :
  exited (handle e p) = Some code ->
  after e (Running p) = Exited code.
Proof. intros H. unfold after. now rewrite H. Qed.

End ExitCode.

(** C6, as the code has it.  When the child exits the process exits with
    the exit code of the child; without a command on the command line,
    and when spawning the child throws, it exits with 1; on SIGTERM it
    tears down and exits with 0; SIGINT does not end it. *)
Theorem exit_codes :
  (forall (p : TerminalIMEProxy) (exitCode : Z) (signal : option Z),
      exited p = None ->
      exit_code (after (pty_exit exitCode signal) (Running p))
        = Some exitCode) /\
  (forall (argv : list jsstring) (debug : bool) (timeout : Z)
          (spawn_throws isTTY : bool),
      parse_flags argv false 50 = flags debug timeout [] ->
      exit_code (start argv spawn_throws isTTY) = Some 1) /\
  (forall (argv : list jsstring) (options : TerminalIMEProxyOptions)
          (isTTY : bool),
      main argv = Construct options ->
      exit_code (start argv true isTTY) = Some 1) /\
  (forall p : TerminalIMEProxy,
      exited p = None ->
      exit_code (after SIGTERM (Running p)) = Some 0 /\
      isDestroyed (handle SIGTERM p) = true) /\
  (forall p : TerminalIMEProxy,
      exited p = None ->
      exit_code (after SIGINT (Running p)) = None).
Proof.
  repeat apply conj.
  - intros p exitCode signal H.
    rewrite (after_exit _ _ exitCode); [ reflexivity | ].
    unfold handle. rewrite H. apply exited_process_exit.
  - intros argv debug timeout spawn_throws isTTY H.
    unfold start, main. now rewrite H.
  - intros argv options isTTY H. unfold start. now rewrite H.
  - intros p H. split.
    + rewrite (after_exit _ _ 0); [ reflexivity | ].
      unfold handle. rewrite H. apply exited_process_exit.
    + unfold handle. rewrite H. cbn [dispatch].
      unfold on_SIGTERM, process_exit.
      cbn [isDestroyed set_exited]. apply isDestroyed_destroy.
  - intros p H. unfold after, handle. rewrite H. cbn [dispatch].
    unfold on_SIGINT. now rewrite H.
Qed.

Lemma exit_codes_witness :
  exit_code (after (pty_exit 3 None) (Running (construct None true)))
    = Some 3 /\
  exit_code (start [] false true) = Some 1 /\
  exit_code (start [str "claude"] true true) = Some 1 /\
  exit_code (after SIGTERM (Running (construct None true))) = Some 0 /\
  exit_code (after SIGINT (Running (construct None true))) = None.
Proof.
  destruct exit_codes as (Hchild & Hargs & Hspawn & Hterm & Hint).
  repeat apply conj.
  - apply Hchild. reflexivity.
  - apply (Hargs [] false 50). reflexivity.
  - apply (Hspawn _ (mkOptions (str "claude") [] false 50)). reflexivity.
  - apply Hterm. reflexivity.
  - apply Hint. reflexivity.
Defined.

(** C6 as stated fails: on SIGTERM the exit code is 0. *)
Lemma exit_codes_counterexample :
  ~ (exists code : Z,
        exit_code (after SIGTERM (start [str "claude"] false true))
          = Some code /\ code <> 0).
Proof.
  intros (code & H & Hcode). vm_compute in H. congruence.
Qed.

(** ** The timeout option *)

Section ParseInt.

Lemma digit_bounds (c : code_unit) :
  is_digit c = true -> 0x30 <= c <= 0x39.
Proof.
  unfold is_digit, in_range. intros H.
  apply andb_true_iff in H. destruct H as [H1 H2].
  apply Z.leb_le in H1. apply Z.leb_le in H2. lia.
Qed.

Lemma digit_not_white_space (c : code_unit) :
  is_digit c = true -> is_white_space c = false.
Proof.
  intros H. apply digit_bounds in H.
  unfold is_white_space, in_range.
  repeat (apply orb_false_iff; split);
    try (apply Z.eqb_neq; lia);
    apply andb_false_iff;
    ((left; apply Z.leb_gt; lia) || (right; apply Z.leb_gt; lia)).
Qed.

(** The positional value computed left to right is the one read off the
    digits. *)
Lemma digits_value_from (ds : jsstring) :
  forall acc : Z,
  fold_left (fun acc c => 10 * acc + (c - 0x30)) ds acc
  = acc * 10 ^ Z.of_nat (length ds) + denotes ds.
Proof.
  induction ds as [ | c ds IH]; intros acc.
  - simpl. lia.
  - cbn [fold_left denotes length]. rewrite IH.
    rewrite Nat2Z.inj_succ, Z.pow_succ_r by lia. ring.
Qed.

Lemma digits_value_denotes (ds : jsstring) : digits_value ds = denotes ds.
Proof. unfold digits_value. rewrite digits_value_from. lia. Qed.

Lemma digits_prefix_app (ds rest : jsstring) :
  forallb is_digit ds = true ->
  rest = [] \/ (exists c r, rest = c :: r /\ is_digit c = false) ->
  digits_prefix (ds ++ rest) = ds.
Proof.
  intros Hds Hrest. induction ds as [ | d ds IH]; simpl in *.
  - destruct Hrest as [-> | (c & r & -> & Hc)]; simpl;
      [ reflexivity | now rewrite Hc ].
  - apply andb_true_iff in Hds. destruct Hds as [Hd Hds].
    rewrite Hd. f_equal. now apply IH.
Qed.

Lemma digits_prefix_none (s : jsstring) :
  (forall c, In c s -> is_digit c = false) -> digits_prefix s = [].
Proof.
  intros H. destruct s as [ | c s]; [ reflexivity | ].
  simpl. rewrite (H c) by now left. reflexivity.
Qed.

Lemma trim_start_incl (s : jsstring) (c : code_unit) :
  In c (trim_start s) -> In c s.
Proof.
  induction s as [ | d s IH]; simpl; [ tauto | ].
  destruct (is_white_space d); simpl; tauto.
Qed.

(** Digits, then anything that does not go on with a digit. *)
Lemma parseInt10_digits (ds rest : jsstring) :
  valid_integer ds = true ->
  rest = [] \/ (exists c r, rest = c :: r /\ is_digit c = false) ->
  parseInt10_string (ds ++ rest) = Num (denotes ds).
Proof.
  unfold valid_integer. intros Hds Hrest.
  apply andb_true_iff in Hds. destruct Hds as [Hne Hds].
  pose proof (digits_prefix_app ds rest Hds Hrest) as Hprefix.
  destruct ds as [ | d ds]; [ discriminate | ].
  assert (Hd : is_digit d = true).
  { simpl in Hds. apply andb_true_iff in Hds. tauto. }
  pose proof (digit_not_white_space d Hd) as Hws.
  pose proof (digit_bounds d Hd) as Hbounds.
  unfold parseInt10_string.
  change ((d :: ds) ++ rest) with (d :: (ds ++ rest)) in *.
  cbn [trim_start]. rewrite Hws.
  assert (E1 : (d =? 0x2D) = false) by (apply Z.eqb_neq; lia).
  assert (E2 : (d =? 0x2B) = false) by (apply Z.eqb_neq; lia).
  rewrite E1, E2, Hprefix, digits_value_denotes.
  f_equal. lia.
Qed.

Lemma parseInt10_no_digit (s : jsstring) :
  (forall c, In c s -> is_digit c = false) -> parseInt10_string s = NaN.
Proof.
  intros H. unfold parseInt10_string.
  assert (Ht : forall c, In c (trim_start s) -> is_digit c = false).
  { intros c Hc. apply H. now apply trim_start_incl. }
  destruct (trim_start s) as [ | c t].
  - reflexivity.
  - destruct (c =? 0x2D); [ | destruct (c =? 0x2B) ];
      rewrite digits_prefix_none; try reflexivity;
      intros x Hx; apply Ht; simpl; tauto.
Qed.

Lemma parse_flags_command (command : jsstring) (rest : list jsstring)
    (debug : bool) (timeout : Z) :
  is_option command = false ->
  parse_flags (command :: rest) debug timeout
  = flags debug timeout (command :: rest).
Proof.
  unfold is_option. cbn [existsb]. intros H.
  repeat (apply orb_false_iff in H; destruct H as [?E H]).
  cbn [parse_flags]. now rewrite E, E0, E1, E2, E3, E4, E5, E6.
Qed.

End ParseInt.

(** C7, as the code has it.  The timeout is [parseInt(value, 10) || 50].
    A value that is a string of decimal digits (up to 15, so that the
    number is exact), alone or followed by text that does not start with a
    digit, gives the number the digits denote, except that 0 gives 50; a
    value without any digit, and a missing value, give 50.  This is the
    timeout the proxy started by [--timeout value command] or
    [-t value command] uses. *)
Theorem timeout_option (value rest : jsstring) :
  (valid_integer value = true -> (length value <= 15)%nat ->
   rest = [] \/ (exists c r, rest = c :: r /\ is_digit c = false) ->
   timeout_value (Some (value ++ rest))
   = if denotes value =? 0 then 50 else denotes value) /\
  ((forall c, In c value -> is_digit c = false) ->
   timeout_value (Some value) = 50) /\
  timeout_value None = 50 /\
  (forall (command : jsstring) (isTTY : bool),
      is_option command = false ->
      effective_timeout (start [str "--timeout"; value; command] false isTTY)
        = Some (timeout_value (Some value)) /\
      effective_timeout (start [str "-t"; value; command] false isTTY)
        = Some (timeout_value (Some value))).
Proof.
  repeat apply conj.
  - intros Hvalid _ Hrest. unfold timeout_value, parseInt10.
    now rewrite parseInt10_digits.
  - intros Hnone. unfold timeout_value, parseInt10.
    now rewrite parseInt10_no_digit.
  - reflexivity.
  - intros command isTTY Hcmd.
    assert (Hlong : parse_flags [str "--timeout"; value; command] false 50
                    = parse_flags [command] false (timeout_value (Some value)))
      by reflexivity.
    assert (Hshort : parse_flags [str "-t"; value; command] false 50
                     = parse_flags [command] false (timeout_value (Some value)))
      by reflexivity.
    unfold start, main.
    rewrite Hlong, Hshort, parse_flags_command by exact Hcmd.
    split; reflexivity.
Qed.

Lemma timeout_option_witness :
  timeout_value (Some (str "120")) = 120 /\
  timeout_value (Some (str "12abc")) = 12 /\
  timeout_value (Some (str "0")) = 50 /\
  timeout_value (Some (str "fast")) = 50 /\
  effective_timeout (start [str "-t"; str "120"; str "claude"] false true)
    = Some 120.
Proof.
  repeat apply conj.
  - destruct (timeout_option (str "120") []) as (H & _).
    rewrite app_nil_r in H.
    apply H; [ reflexivity | simpl; lia | now left ].
  - destruct (timeout_option (str "12") (str "abc")) as (H & _).
    apply H; [ reflexivity | simpl; lia | ].
    right. exists 0x61, (str "bc"). split; reflexivity.
  - destruct (timeout_option (str "0") []) as (H & _).
    rewrite app_nil_r in H.
    apply H; [ reflexivity | simpl; lia | now left ].
  - destruct (timeout_option (str "fast") []) as (_ & H & _).
    apply H. intros c Hc. simpl in Hc.
    repeat (destruct Hc as [<- | Hc]; [ reflexivity | ]). contradiction.
  - destruct (timeout_option (str "120") []) as (_ & _ & _ & H).
    apply (H (str "claude") true). reflexivity.
Defined.

(** C7 as stated fails both ways: [12abc] is not an integer, yet the
    timeout is 12 and not 50; [0] is an integer, yet the timeout is 50. *)
Lemma timeout_option_counterexample :
  (valid_integer (str "12abc") = false /\
   effective_timeout
     (start [str "--timeout"; str "12abc"; str "claude"] false true)
   = Some 12) /\
  (valid_integer (str "0") = true /\ denotes (str "0") = 0 /\
   effective_timeout
     (start [str "--timeout"; str "0"; str "claude"] false true)
   = Some 50).
Proof. repeat split. Qed.

(** ** The scenarios of the specification, run on the model *)

Section Scenarios.

Local Abbreviation p0 := (construct (Some 50) true).

(** S1: regular text goes through at once, the composed word when the
    timer fires. *)
Example scenario_settled_composition :
  pty_written (handle_all [stdin_data [0x78; 0x69; 0x6E; 0x20] 0] p0)
    = [str "xin "] /\
  pty_written
    (handle_all [stdin_data [0x78; 0x69; 0x6E; 0x20] 0;
                 stdin_data [0x63; 0x68; 0xC3; 0xA0; 0x6F] 200;
                 flush_timer] p0)
    = [str "xin "; [0x63; 0x68; 0xE0; 0x6F]].
Proof. split; reflexivity. Qed.

(** S2: the ideograph reaches the child before the line feed. *)
Example scenario_enter_flushes :
  pty_written
    (handle_all [stdin_data [0xE4; 0xB8; 0xAD] 0; stdin_data [0x0A] 5] p0)
    = [[0x4E2D]; [0x0A]].
Proof. reflexivity. Qed.

(** S3: a backspace taken by the buffer; the child receives nothing, also
    when the timer, which is still armed, fires. *)
Example scenario_backspace_in_composition :
  let p := handle_all [stdin_data [0xC3; 0xB1] 0; stdin_data [0x7F] 5] p0 in
  pty_written p = [] /\
  flushTimer (compositionBuffer p) = Some 50 /\
  pty_written (handle flush_timer p) = [].
Proof. repeat split. Qed.

(** S4: a backspace on an empty buffer goes to the child. *)
Example scenario_backspace_forwarded :
  pty_written (handle_all [stdin_data [0x7F] 0] p0) = [[0x7F]].
Proof. reflexivity. Qed.

(** S5: an escape sequence flushes the syllable, then follows it. *)
Example scenario_escape_sequence :
  pty_written
    (handle_all [stdin_data [0xED; 0x95; 0x9C] 0;
                 stdin_data [0x1B; 0x5B; 0x41] 10] p0)
    = [[0xD55C]; [0x1B; 0x5B; 0x41]].
Proof. reflexivity. Qed.

(** S6: regular, composed, regular. *)
Example scenario_mixed_burst :
  pty_written
    (handle_all [stdin_data [0x61] 0; stdin_data [0xE3; 0x81; 0x82] 5;
                 stdin_data [0x62] 10] p0)
    = [[0x61]; [0x3042]; [0x62]].
Proof. reflexivity. Qed.

End Scenarios.

(* ================================================================== *)
(** * Further properties of the code *)
(* ================================================================== *)

(** ** The classifier decides on ASCII alone *)

Section AsciiOnly.

Lemma has_non_ascii_false (s : jsstring) :
  has_non_ascii s = false <-> (forall c, In c s -> c < 0x80).
Proof.
  unfold has_non_ascii. split.
  - intros H c Hin.
    destruct (Z.ltb_spec c 0x80) as [Hlt | Hge]; [ exact Hlt | ].
    assert (E : existsb (fun c => 0x80 <=? c) s = true).
    { apply existsb_exists. exists c. split; [ exact Hin | ].
      now apply Z.leb_le. }
    congruence.
  - intros H. destruct (existsb (fun c => 0x80 <=? c) s) eqn:E;
      [ | reflexivity ].
    apply existsb_exists in E. destruct E as (c & Hin & Hc).
    apply Z.leb_le in Hc. specialize (H c Hin). lia.
Qed.

Lemma has_non_ascii_true (s : jsstring) :
  has_non_ascii s = true <-> (exists c, In c s /\ 0x80 <= c).
Proof.
  unfold has_non_ascii. rewrite existsb_exists.
  split; intros (c & Hin & Hc); exists c; split; auto;
    now apply Z.leb_le.
Qed.

(** A string of ASCII units has as many UTF-8 bytes as units. *)
Lemma byteLength_ascii (s : jsstring) :
  (forall c, In c s -> c < 0x80) -> byteLength s = Z.of_nat (length s).
Proof.
  unfold byteLength.
  functional induction (spread s); intros H.
  - reflexivity.
  - assert (Hc : c < 0x80) by (apply H; now left).
    apply Z.ltb_lt in Hc. simpl. rewrite Hc. reflexivity.
  - exfalso. assert (Hc : c < 0x80) by (apply H; now left).
    apply andb_true_iff in e1. destruct e1 as [Hhigh _].
    unfold is_high, in_range in Hhigh.
    apply andb_true_iff in Hhigh. destruct Hhigh as [Hlo _].
    apply Z.leb_le in Hlo. lia.
  - assert (Hc : c < 0x80) by (apply H; now left).
    rewrite byteLength_cons, IHl.
    + apply Z.ltb_lt in Hc. cbn [utf8_char_length]. rewrite Hc.
      change (length (c :: d :: rest')) with (S (length (d :: rest'))).
      lia.
    + intros x Hx. apply H. now right.
Qed.

(** A range test whose ranges all start outside ASCII fails on ASCII. *)
Lemma test_ascii (ranges : list (Z * Z)) (s : jsstring) :
  forallb (fun r => 0x80 <=? fst r) ranges = true ->
  has_non_ascii s = false ->
  test ranges s = false.
Proof.
  intros Hranges Hs. rewrite has_non_ascii_false in Hs.
  unfold test. destruct (existsb (in_class ranges) s) eqn:E;
    [ | reflexivity ].
  apply existsb_exists in E. destruct E as (c & Hin & Hc).
  unfold in_class in Hc. apply existsb_exists in Hc.
  destruct Hc as (r & Hr & Hrange).
  rewrite forallb_forall in Hranges. specialize (Hranges r Hr).
  apply Z.leb_le in Hranges.
  unfold in_range in Hrange. apply andb_true_iff in Hrange.
  destruct Hrange as [Hlo _]. apply Z.leb_le in Hlo.
  specialize (Hs c Hin). lia.
Qed.

Lemma isMultiByte_non_ascii (str : jsstring) :
  isMultiByte str = has_non_ascii str.
Proof.
  unfold isMultiByte.
  destruct (has_non_ascii str) eqn:E.
  - apply has_non_ascii_true in E. destruct E as (c & Hin & Hc).
    apply Z.ltb_lt. now apply byteLength_nonascii with c.
  - rewrite byteLength_ascii by now apply has_non_ascii_false.
    apply Z.ltb_irrefl.
Qed.

Lemma language_tests_ascii (s : jsstring) :
  has_non_ascii s = false ->
  isVietnamese s = false /\ isChinese s = false /\ isJapanese s = false /\
  isKorean s = false /\ test thai s = false /\ test arabic s = false /\
  test devanagari s = false.
Proof.
  intros H.
  unfold isVietnamese, isChinese, isJapanese, isKorean.
  rewrite !(fun r Hr => test_ascii r s Hr H) by reflexivity.
  repeat split.
Qed.

Lemma isIMEInput_non_ascii (input : jsstring) :
  isIMEInput input = has_non_ascii input.
Proof.
  destruct (has_non_ascii input) eqn:E.
  - apply has_non_ascii_true in E. destruct E as (c & Hin & Hc).
    apply isIMEInput_multibyte; [ | now apply byteLength_nonascii with c ].
    unfold empty_or_single_ascii.
    destruct input as [ | c0 [ | d rest]];
      [ contradiction | | reflexivity ].
    destruct Hin as [<- | []]. simpl. apply Z.ltb_ge. lia.
  - pose proof (isMultiByte_non_ascii input) as Hm. rewrite E in Hm.
    destruct (language_tests_ascii input E)
      as (Hv & Hc & Hj & Hk & Ht & Ha & Hd).
    unfold isIMEInput, hasCombiningMarks, isCJK.
    rewrite Hm, Hv, Hc, Hj, Hk, Ht, Ha, Hd.
    rewrite (test_ascii vietnamese_combining input eq_refl E).
    now destruct (empty_or_single_ascii input).
Qed.

End AsciiOnly.

(** X1. [isMultiByte] holds exactly of the strings with a code unit
    outside 7-bit ASCII. *)
Theorem isMultiByte_iff_non_ascii (str : jsstring) :
  isMultiByte str = true <-> (exists c, In c str /\ 0x80 <= c).
Proof.
  rewrite isMultiByte_non_ascii. apply has_non_ascii_true.
Qed.

(** X2. [isIMEInput] is [isMultiByte]: the first guard only rejects
    strings [isMultiByte] rejects, and the tests for combining marks and
    for the language ranges that follow it never accept a string it
    rejected.  A string of ASCII characters is never IME input. *)
Theorem isIMEInput_is_isMultiByte (input : jsstring) :
  isIMEInput input = isMultiByte input /\
  ((forall c, In c input -> c < 0x80) -> isIMEInput input = false).
Proof.
  rewrite isIMEInput_non_ascii, isMultiByte_non_ascii.
  split; [ reflexivity | apply has_non_ascii_false ].
Qed.

Lemma isIMEInput_is_isMultiByte_witness :
  isIMEInput (str "zhong") = false.
Proof.
  apply (isIMEInput_is_isMultiByte (str "zhong")).
  intros c Hc. simpl in Hc.
  repeat (destruct Hc as [<- | Hc]; [ lia | ]). contradiction.
Defined.

(** X3. [detectLanguage] names a language only for input that
    [isIMEInput] accepts; on a string of ASCII characters it answers
    none. *)
Theorem detectLanguage_only_IME (input : jsstring) (l : language) :
  detectLanguage input = Some l -> isIMEInput input = true.
Proof.
  intros H. rewrite isIMEInput_non_ascii.
  destruct (has_non_ascii input) eqn:E; [ reflexivity | ].
  destruct (language_tests_ascii input E)
    as (Hv & Hc & Hj & Hk & Ht & Ha & Hd).
  unfold detectLanguage in H.
  rewrite Hv, Hc, Hj, Hk, Ht, Ha, Hd in H. discriminate.
Qed.

Lemma detectLanguage_only_IME_witness :
  isIMEInput [0x4E2D; 0x6587] = true.
Proof.
  apply (detectLanguage_only_IME [0x4E2D; 0x6587] chinese). reflexivity.
Defined.

(** ** The language tables *)

Section LanguageTables.

Lemma test_single (ranges : list (Z * Z)) (c : code_unit) :
  test ranges [c] = in_class ranges c.
Proof. unfold test. simpl. apply orb_false_r. Qed.

Lemma in_class_app (r1 r2 : list (Z * Z)) (c : code_unit) :
  in_class (r1 ++ r2) c = in_class r1 c || in_class r2 c.
Proof. unfold in_class. apply existsb_app. Qed.

Lemma in_class_cons (lo hi : Z) (ranges : list (Z * Z)) (c : code_unit) :
  in_class ((lo, hi) :: ranges) c = true <->
  lo <= c <= hi \/ in_class ranges c = true.
Proof.
  unfold in_class. cbn [existsb fst snd]. unfold in_range.
  rewrite orb_true_iff, andb_true_iff, !Z.leb_le. tauto.
Qed.

Lemma in_class_nil (c : code_unit) : in_class [] c = true <-> False.
Proof. unfold in_class. simpl. split; [ discriminate | tauto ]. Qed.

(** A code unit belongs to the ranges of one language at most. *)
Lemma script_ranges_disjoint (l1 l2 : language) (c : code_unit) :
  in_class (script_ranges l1) c = true ->
  in_class (script_ranges l2) c = true ->
  l1 = l2.
Proof.
  destruct l1, l2; try reflexivity; intros H1 H2; exfalso;
    unfold script_ranges, vietnamese_precomposed, vietnamese_combining,
      chinese_main, chinese_extA, chinese_compat, chinese_radicals,
      japanese_hiragana, japanese_katakana, japanese_katakanaExt,
      japanese_halfwidth, korean_hangul, korean_jamo, korean_jamoExt,
      korean_compat, thai, arabic, devanagari in H1, H2;
    cbn [app] in H1, H2;
    repeat rewrite in_class_cons in H1;
    repeat rewrite in_class_cons in H2;
    rewrite in_class_nil in H1, H2; lia.
Qed.

(** The test [detectLanguage] makes for each language, on one code
    unit. *)
Lemma language_tests_single (c : code_unit) :
  isVietnamese [c] = in_class (script_ranges vietnamese) c /\
  isChinese [c] = in_class (script_ranges chinese) c /\
  isJapanese [c] = in_class (script_ranges japanese) c /\
  isKorean [c] = in_class (script_ranges korean) c /\
  test thai [c] = in_class (script_ranges lang_thai) c /\
  test arabic [c] = in_class (script_ranges lang_arabic) c /\
  test devanagari [c] = in_class (script_ranges lang_devanagari) c.
Proof.
  unfold isVietnamese, isChinese, isJapanese, isKorean, script_ranges.
  rewrite !test_single, !in_class_app, !orb_assoc.
  repeat split.
Qed.

End LanguageTables.

(** X4. The ranges of the seven languages do not overlap, so on a single
    code unit the order of the tests in [detectLanguage] does not matter:
    the answer is the language whose ranges hold the unit, and none when
    no range does. *)
Theorem detectLanguage_single (c : code_unit) (l : language) :
  (detectLanguage [c] = Some l <-> in_class (script_ranges l) c = true) /\
  (detectLanguage [c] = None <->
   forall l', in_class (script_ranges l') c = false).
Proof.
  destruct (language_tests_single c) as (Hv & Hc & Hj & Hk & Ht & Ha & Hd).
  unfold detectLanguage. rewrite Hv, Hc, Hj, Hk, Ht, Ha, Hd.
  destruct (in_class (script_ranges vietnamese) c) eqn:Ev;
  [ | destruct (in_class (script_ranges chinese) c) eqn:Ec;
  [ | destruct (in_class (script_ranges japanese) c) eqn:Ej;
  [ | destruct (in_class (script_ranges korean) c) eqn:Ek;
  [ | destruct (in_class (script_ranges lang_thai) c) eqn:Et;
  [ | destruct (in_class (script_ranges lang_arabic) c) eqn:Ea;
  [ | destruct (in_class (script_ranges lang_devanagari) c) eqn:Ed ]]]]]].
  all: split; split; intros H;
    try (injection H as <-; assumption);
    try discriminate;
    try (f_equal; eapply script_ranges_disjoint; eassumption);
    try (specialize (H vietnamese); congruence);
    try (specialize (H chinese); congruence);
    try (specialize (H japanese); congruence);
    try (specialize (H korean); congruence);
    try (specialize (H lang_thai); congruence);
    try (specialize (H lang_arabic); congruence);
    try (specialize (H lang_devanagari); congruence).
  - destruct l; congruence.
  - intros []; assumption.
Qed.

Lemma detectLanguage_single_witness :
  detectLanguage [0x3042] = Some japanese.
Proof.
  destruct (detectLanguage_single 0x3042 japanese) as [[_ H] _].
  apply H. reflexivity.
Defined.

(** ** More on the composition buffer *)

Section BufferRuns.

Variable compositionTimeout : Z.

Lemma run_app (ops1 ops2 : list op) (st : CompositionState) :
  run compositionTimeout (ops1 ++ ops2) st =
  (fst (run compositionTimeout ops2
          (fst (run compositionTimeout ops1 st))),
   snd (run compositionTimeout ops1 st)
   ++ snd (run compositionTimeout ops2
             (fst (run compositionTimeout ops1 st)))).
Proof.
  revert st. induction ops1 as [ | o ops1 IH]; intros st; simpl.
  - now destruct (run compositionTimeout ops2 st).
  - destruct (step compositionTimeout o st) as [st1 out1].
    rewrite IH.
    destruct (run compositionTimeout ops1 st1) as [st2 out2]. simpl.
    now rewrite app_assoc.
Qed.

Lemma clear_is_flush_state (st : CompositionState) :
  clear st = fst (flush st).
Proof.
  rewrite flush_state. unfold clear, cancel_timer.
  destruct st as [c b t [tm | ]]; reflexivity.
Qed.

Lemma emitted_text_app (out1 out2 : list emission) :
  emitted_text (out1 ++ out2) = emitted_text out1 ++ emitted_text out2.
Proof. unfold emitted_text. now rewrite map_app, concat_app. Qed.

(** One operation that does not discard hands on all the text it found
    and was given. *)
Lemma step_conserves (o : op) (st : CompositionState) :
  nonempty_composing st -> discards o = false ->
  emitted_text (snd (step compositionTimeout o st))
  ++ buffer (fst (step compositionTimeout o st))
  = buffer st ++ op_input o.
Proof.
  intros Hinv Hkeep.
  assert (Hflush : emitted_text (snd (flush st)) ++ buffer (fst (flush st))
                   = buffer st ++ []).
  { rewrite flush_state, flush_emits. cbn [buffer].
    destruct (buffer st); unfold emitted_text; simpl;
      now rewrite ?app_nil_r. }
  destruct o as [input [ | ] now | | | | | ]; try discriminate; simpl.
  - reflexivity.
  - assert (Hempty : buffer st = [] ->
        emitted_text (snd (handleRegularInput input st))
        ++ buffer (fst (handleRegularInput input st)) = buffer st ++ input).
    { intros Hb. rewrite handleRegularInput_passes by now right.
      cbn [fst snd]. rewrite Hb. unfold emitted_text. simpl.
      now rewrite !app_nil_r. }
    destruct (buffer st) as [ | c b] eqn:Hb; [ now apply Hempty | ].
    assert (Hc : isComposing st = true).
    { apply Hinv. rewrite Hb. discriminate. }
    rewrite handleRegularInput_flushes
      by (try assumption; rewrite Hb; discriminate).
    rewrite flush_state, flush_emits, Hb. unfold emitted_text. simpl.
    now rewrite !app_nil_r.
  - exact Hflush.
  - unfold CompositionBuffer.destroy, cancel_timer, emitted_text.
    destruct (flushTimer st); simpl; now rewrite app_nil_r.
  - unfold timer_fires. destruct (flushTimer st); [ exact Hflush | ].
    unfold emitted_text. simpl. now rewrite app_nil_r.
Qed.

End BufferRuns.

(** X5. [flush] is idempotent: a second [flush] leaves the state of the
    first and emits nothing.  [clear] leaves the state [flush] leaves,
    without the emission. *)
Theorem flush_idempotent (st : CompositionState) :
  flush (fst (flush st)) = (fst (flush st), []) /\
  clear st = fst (flush st) /\
  clear (fst (flush st)) = fst (flush st).
Proof.
  repeat split.
  - rewrite flush_state. reflexivity.
  - apply clear_is_flush_state.
  - rewrite clear_is_flush_state, !flush_state. reflexivity.
Qed.

(** X6. Nothing is lost, doubled or reordered by a buffer on which
    neither [backspace] nor [clear] is called: starting where a non-empty
    buffer means composing (as in the initial state), the texts received by
    the two sinks, in the order of the calls, followed by what is still
    buffered, are the text buffered at the start followed by the inputs in
    the order given. *)
Theorem run_conserves_text (compositionTimeout : Z) (ops : list op)
    (st : CompositionState) :
  nonempty_composing st ->
  forallb (fun o => negb (discards o)) ops = true ->
  emitted_text (snd (run compositionTimeout ops st))
  ++ buffer (fst (run compositionTimeout ops st))
  = buffer st ++ input_text ops.
Proof.
  revert st. induction ops as [ | o ops IH]; intros st Hinv Hkeep.
  - unfold emitted_text, input_text. simpl. now rewrite app_nil_r.
  - cbn [forallb] in Hkeep. apply andb_true_iff in Hkeep.
    destruct Hkeep as [Ho Hkeep]. apply negb_true_iff in Ho.
    pose proof (step_conserves compositionTimeout o st Hinv Ho) as Hstep.
    pose proof (step_nonempty_composing compositionTimeout o st Hinv) as Hinv1.
    cbn [run].
    destruct (step compositionTimeout o st) as [st1 out1].
    specialize (IH st1 Hinv1 Hkeep).
    destruct (run compositionTimeout ops st1) as [st2 out2].
    cbn [fst snd] in *.
    rewrite emitted_text_app, <- app_assoc, IH, app_assoc, Hstep.
    unfold input_text. cbn [map concat]. now rewrite app_assoc.
Qed.

Lemma run_conserves_text_witness :
  emitted_text
    (snd (run 50 [Process [0x61] false 0; Process [0x3042] true 5;
                  Process [0x62] false 10; Process [0x4E2D] true 20]
            initial))
  ++ buffer
       (fst (run 50 [Process [0x61] false 0; Process [0x3042] true 5;
                     Process [0x62] false 10; Process [0x4E2D] true 20]
               initial))
  = [0x61; 0x3042; 0x62; 0x4E2D].
Proof.
  apply (run_conserves_text 50
           [Process [0x61] false 0; Process [0x3042] true 5;
            Process [0x62] false 10; Process [0x4E2D] true 20] initial).
  - intros H. now contradiction H.
  - reflexivity.
Defined.

Section Bursts.

Variable compositionTimeout : Z.

Lemma step_composes_silent (o : op) (st : CompositionState) :
  composes o = true -> snd (step compositionTimeout o st) = [].
Proof. destruct o as [input [ | ] now | | | | | ]; now try discriminate. Qed.

Lemma last_cons_default {A : Type} (l : list A) :
  forall a d : A, List.last (a :: l) d = List.last l a.
Proof.
  induction l as [ | b l IH]; intros a d; [ reflexivity | ].
  change (List.last (a :: b :: l) d) with (List.last (b :: l) d).
  rewrite !IH. reflexivity.
Qed.

Lemma ime_burst_state (chunks : list (jsstring * Z)) :
  forall (chunk : jsstring * Z) (st : CompositionState),
  fst (run compositionTimeout (ime_burst (chunk :: chunks)) st)
  = {| isComposing := true;
       buffer := buffer st ++ concat (map fst (chunk :: chunks));
       lastInputTime := snd (List.last chunks chunk);
       flushTimer :=
         Some (snd (List.last chunks chunk)
               + setTimeout_delay compositionTimeout) |}.
Proof.
  induction chunks as [ | chunk' chunks IH]; intros chunk st.
  - simpl. now rewrite app_nil_r.
  - change (ime_burst (chunk :: chunk' :: chunks))
      with (Process (fst chunk) true (snd chunk)
              :: ime_burst (chunk' :: chunks)).
    cbn [run step process handleIMEInput].
    specialize (IH chunk'
      (set_flushTimer
         (Some (snd chunk + setTimeout_delay compositionTimeout))
         (set_lastInputTime (snd chunk)
            (set_buffer (buffer (set_isComposing true st) ++ fst chunk)
               (set_isComposing true st))))).
    destruct (run compositionTimeout (ime_burst (chunk' :: chunks)) _)
      as [st2 out2].
    cbn [fst] in *. rewrite IH, (last_cons_default chunks chunk' chunk).
    cbn [buffer set_flushTimer set_lastInputTime set_buffer set_isComposing
         map concat].
    now rewrite <- app_assoc.
Qed.

Lemma setTimeout_delay_in_range :
  1 <= compositionTimeout <= 2 ^ 31 - 1 ->
  setTimeout_delay compositionTimeout = compositionTimeout.
Proof.
  intros [Hlo Hhi]. unfold setTimeout_delay, TIMEOUT_MAX.
  apply Z.leb_le in Hlo.
  assert (Hhi' : (compositionTimeout <=? 2147483647) = true)
    by (apply Z.leb_le; lia).
  now rewrite Hlo, Hhi'.
Qed.

Lemma setTimeout_delay_clamped :
  compositionTimeout < 1 \/ 2 ^ 31 - 1 < compositionTimeout ->
  setTimeout_delay compositionTimeout = 1.
Proof.
  intros H. unfold setTimeout_delay, TIMEOUT_MAX.
  destruct H as [H | H].
  - apply Z.leb_gt in H. now rewrite H.
  - assert (H' : (compositionTimeout <=? 2147483647) = false)
      by (apply Z.leb_gt; lia).
    rewrite H', andb_false_r. reflexivity.
Qed.

End Bursts.

(** X7. IME input and [backspace] emit nothing by themselves.  After a
    burst of IME inputs the buffer holds what it held followed by the
    inputs in order, the flag is set, and the flush timer is the one armed
    by the last input of the burst: it is due [compositionTimeout] after
    that input when [compositionTimeout] lies between 1 and 2^31 - 1, and
    1 ms after it otherwise, as [setTimeout] has it. *)
Theorem ime_burst_is_buffered (compositionTimeout : Z) (st : CompositionState) :
  (forall ops : list op,
      forallb composes ops = true ->
      snd (run compositionTimeout ops st) = []) /\
  (forall (chunk : jsstring * Z) (chunks : list (jsstring * Z)),
      fst (run compositionTimeout (ime_burst (chunk :: chunks)) st)
      = {| isComposing := true;
           buffer := buffer st ++ concat (map fst (chunk :: chunks));
           lastInputTime := snd (List.last chunks chunk);
           flushTimer :=
             Some (snd (List.last chunks chunk)
                   + setTimeout_delay compositionTimeout) |}) /\
  (1 <= compositionTimeout <= 2 ^ 31 - 1 ->
   forall (chunk : jsstring * Z) (chunks : list (jsstring * Z)),
   flushTimer (fst (run compositionTimeout (ime_burst (chunk :: chunks)) st))
   = Some (snd (List.last chunks chunk) + compositionTimeout)) /\
  (compositionTimeout < 1 \/ 2 ^ 31 - 1 < compositionTimeout ->
   forall (chunk : jsstring * Z) (chunks : list (jsstring * Z)),
   flushTimer (fst (run compositionTimeout (ime_burst (chunk :: chunks)) st))
   = Some (snd (List.last chunks chunk) + 1)).
Proof.
  repeat apply conj.
  - intros ops. revert st.
    induction ops as [ | o ops IH]; intros st Hops; [ reflexivity | ].
    cbn [forallb] in Hops. apply andb_true_iff in Hops.
    destruct Hops as [Ho Hops].
    pose proof (step_composes_silent compositionTimeout o st Ho) as Hstep.
    cbn [run]. destruct (step compositionTimeout o st) as [st1 out1].
    specialize (IH st1 Hops).
    destruct (run compositionTimeout ops st1) as [st2 out2].
    cbn [snd] in *. now subst.
  - intros chunk chunks. apply ime_burst_state.
  - intros H chunk chunks.
    rewrite ime_burst_state, setTimeout_delay_in_range by exact H.
    reflexivity.
  - intros H chunk chunks.
    rewrite ime_burst_state, setTimeout_delay_clamped by exact H.
    reflexivity.
Qed.

Lemma ime_burst_is_buffered_witness :
  snd (run 50 [Process [0x3042] true 0; Backspace; Process [0x4E2D] true 9]
         initial) = [] /\
  flushTimer
    (fst (run 50 (ime_burst [([0x3042], 0); ([0x4E2D], 9)]) initial))
  = Some 59 /\
  flushTimer
    (fst (run 0 (ime_burst [([0x3042], 0); ([0x4E2D], 9)]) initial))
  = Some 10.
Proof.
  destruct (ime_burst_is_buffered 50 initial) as (Hsilent & _ & Hin & _).
  destruct (ime_burst_is_buffered 0 initial) as (_ & _ & _ & Hout).
  repeat apply conj.
  - apply Hsilent. reflexivity.
  - apply (Hin ltac:(lia) ([0x3042], 0) [([0x4E2D], 9)]).
  - apply (Hout ltac:(lia) ([0x3042], 0) [([0x4E2D], 9)]).
Defined.

Section TimerAndFlag.

Variable compositionTimeout : Z.

Lemma step_timer_composing (o : op) (st : CompositionState) :
  (flushTimer st <> None -> isComposing st = true) ->
  flushTimer (fst (step compositionTimeout o st)) <> None ->
  isComposing (fst (step compositionTimeout o st)) = true.
Proof.
  intros Hinv.
  destruct o as [input [ | ] now | | | | | ]; cbn [step process fst].
  - reflexivity.
  - unfold handleRegularInput.
    destruct (isComposing st && truthy (buffer st));
      [ | cbn [fst]; exact Hinv ].
    pose proof (flush_state st) as Hs.
    destruct (flush st) as [st' out]. cbn [fst] in *. subst st'.
    cbn. congruence.
  - rewrite flush_state. cbn. congruence.
  - rewrite clear_is_flush_state, flush_state. cbn. congruence.
  - destruct (backspace_cases st)
      as [[_ Hbs] | (front & last & _ & Hbs & _)];
      rewrite Hbs; exact Hinv.
  - unfold CompositionBuffer.destroy, cancel_timer.
    destruct (flushTimer st) eqn:E; cbn; rewrite ?E; congruence.
  - unfold timer_fires. destruct (flushTimer st) eqn:E.
    + rewrite flush_state. cbn. congruence.
    + cbn [fst]. rewrite E. congruence.
Qed.

Lemma step_composing_timer (o : op) (st : CompositionState) :
  is_Destroy o = false ->
  (isComposing st = true -> flushTimer st <> None) ->
  isComposing (fst (step compositionTimeout o st)) = true ->
  flushTimer (fst (step compositionTimeout o st)) <> None.
Proof.
  intros Ho Hinv.
  destruct o as [input [ | ] now | | | | | ]; cbn [step process fst].
  - intros _. unfold handleIMEInput. cbn. discriminate.
  - unfold handleRegularInput.
    destruct (isComposing st && truthy (buffer st));
      [ | cbn [fst]; exact Hinv ].
    pose proof (flush_state st) as Hs.
    destruct (flush st) as [st' out]. cbn [fst] in *. subst st'.
    cbn. congruence.
  - rewrite flush_state. cbn. congruence.
  - rewrite clear_is_flush_state, flush_state. cbn. congruence.
  - destruct (backspace_cases st)
      as [[_ Hbs] | (front & last & _ & Hbs & _)];
      rewrite Hbs; exact Hinv.
  - discriminate Ho.
  - unfold timer_fires. destruct (flushTimer st) eqn:E.
    + rewrite flush_state. cbn. congruence.
    + cbn [fst]. intros Hc. specialize (Hinv Hc). congruence.
Qed.

End TimerAndFlag.

(** X8. From the initial state on, an armed timer means the flag is set.
    As long as [destroy] is not called the converse holds, too, and so a
    non-empty buffer always has its flush timer armed: buffered text does
    not stay behind without a flush to come. *)
Theorem timer_tracks_composing (compositionTimeout : Z) (ops : list op) :
  (flushTimer (fst (run compositionTimeout ops initial)) <> None ->
   isComposing (fst (run compositionTimeout ops initial)) = true) /\
  (forallb (fun o => negb (is_Destroy o)) ops = true ->
   (isComposing (fst (run compositionTimeout ops initial)) = true ->
    flushTimer (fst (run compositionTimeout ops initial)) <> None) /\
   (buffer (fst (run compositionTimeout ops initial)) <> [] ->
    flushTimer (fst (run compositionTimeout ops initial)) <> None)).
Proof.
  assert (Hall : forall st,
    (flushTimer st <> None -> isComposing st = true) ->
    nonempty_composing st ->
    (flushTimer (fst (run compositionTimeout ops st)) <> None ->
     isComposing (fst (run compositionTimeout ops st)) = true) /\
    nonempty_composing (fst (run compositionTimeout ops st)) /\
    (forallb (fun o => negb (is_Destroy o)) ops = true ->
     (isComposing st = true -> flushTimer st <> None) ->
     isComposing (fst (run compositionTimeout ops st)) = true ->
     flushTimer (fst (run compositionTimeout ops st)) <> None)).
  { induction ops as [ | o ops' IH]; intros st H1 H2.
    - cbn. auto.
    - pose proof (step_timer_composing compositionTimeout o st H1) as H1'.
      pose proof (step_nonempty_composing compositionTimeout o st H2) as H2'.
      pose proof (step_composing_timer compositionTimeout o st) as H3'.
      cbn [run]. destruct (step compositionTimeout o st) as [st1 out1].
      destruct (IH st1 H1' H2') as (IH1 & IH2 & IH3).
      destruct (run compositionTimeout ops' st1) as [st2 out2].
      cbn [fst] in *. repeat split; auto.
      intros Hops Hst. cbn [forallb] in Hops.
      apply andb_true_iff in Hops. destruct Hops as [Ho Hops].
      apply negb_true_iff in Ho. auto. }
  assert (Hinit1 : flushTimer initial <> None -> isComposing initial = true).
  { intros H. now contradiction H. }
  assert (Hinit2 : nonempty_composing initial).
  { intros H. now contradiction H. }
  destruct (Hall initial Hinit1 Hinit2) as (H1 & H2 & H3).
  - split; [ exact H1 | ]. intros Hops.
    assert (H4 : isComposing (fst (run compositionTimeout ops initial)) = true
                 -> flushTimer (fst (run compositionTimeout ops initial))
                    <> None).
    { apply H3; [ exact Hops | discriminate ]. }
    split; [ exact H4 | ]. intros Hb. apply H4, H2, Hb.
Qed.

Lemma timer_tracks_composing_witness :
  flushTimer
    (fst (run 50 [Process [0xF1] true 0; Backspace; Process [0x61] false 7]
            initial)) <> None.
Proof.
  destruct (timer_tracks_composing 50
              [Process [0xF1] true 0; Backspace; Process [0x61] false 7])
    as [_ H].
  destruct H as [Hflag _]; [ reflexivity | ].
  apply Hflag. reflexivity.
Defined.

Section BackspaceMore.

Lemma backspace_count (st : CompositionState) :
  code_point_length (buffer (fst (backspace st)))
    = Nat.pred (code_point_length (buffer st)) /\
  snd (backspace st) = (0 <? code_point_length (buffer st))%nat.
Proof.
  unfold code_point_length.
  destruct (backspace_cases st)
    as [[Hb Hbs] | (front & last & Hsp & Hbs & Hfront)]; rewrite Hbs.
  - cbn [fst snd]. rewrite Hb. split; reflexivity.
  - cbn [fst snd set_buffer buffer]. rewrite Hfront, Hsp, length_app.
    cbn [length]. split.
    + rewrite Nat.add_1_r. reflexivity.
    + symmetry. apply Nat.ltb_lt. lia.
Qed.

Lemma is_high_surrogate (c : code_unit) :
  is_high c = true -> is_surrogate c = true.
Proof.
  unfold is_high, is_surrogate, in_range. intros H.
  apply andb_true_iff in H. destruct H as [H1 H2].
  apply Z.leb_le in H1. apply Z.leb_le in H2.
  apply andb_true_iff. split; apply Z.leb_le; lia.
Qed.

(** One more code point after a string without unpaired surrogates is
    iterated as one more element. *)
Lemma spread_snoc (s ch : jsstring) :
  isWellFormed s = true -> spread ch = [ch] ->
  spread (s ++ ch) = spread s ++ [ch].
Proof.
  intros Hs Hch. unfold isWellFormed in Hs. revert Hs.
  assert (Hne : exists d r, ch = d :: r).
  { destruct ch as [ | d r]; [ discriminate | eauto ]. }
  functional induction (spread s); intros Hs.
  - exact Hch.
  - destruct Hne as (d & r & ->). cbn [app].
    cbn [forallb well_formed_char] in Hs.
    rewrite andb_true_r in Hs. apply negb_true_iff in Hs.
    rewrite spread_single; [ now rewrite Hch | ].
    destruct (is_high c) eqn:E; [ | reflexivity ].
    apply is_high_surrogate in E. congruence.
  - change ((c :: d :: rest') ++ ch) with (c :: d :: (rest' ++ ch)).
    rewrite spread_pair by assumption.
    cbn [forallb] in Hs. apply andb_true_iff in Hs.
    rewrite IHl by tauto. reflexivity.
  - change ((c :: d :: rest') ++ ch) with (c :: d :: (rest' ++ ch)).
    rewrite spread_single by assumption.
    change (d :: (rest' ++ ch)) with ((d :: rest') ++ ch).
    cbn [forallb] in Hs. apply andb_true_iff in Hs.
    rewrite IHl by tauto. reflexivity.
Qed.

End BackspaceMore.

(** X9. [backspace] called [k] times removes [k] code points, as far as
    there are any, and touches nothing but the buffer; the call after
    those answers true exactly when a code point is left. *)
Theorem backspaces_count (st : CompositionState) (k : nat) :
  code_point_length (buffer (backspaces k st))
    = (code_point_length (buffer st) - k)%nat /\
  snd (backspace (backspaces k st))
    = (k <? code_point_length (buffer st))%nat /\
  backspaces k st = set_buffer (buffer (backspaces k st)) st.
Proof.
  induction k as [ | k (IH1 & IH2 & IH3)].
  - change (backspaces 0 st) with st. repeat split.
    + lia.
    + apply backspace_count.
    + now destruct st.
  - change (backspaces (S k) st) with (fst (backspace (backspaces k st))).
    destruct (backspace_count (backspaces k st)) as [Hlen _].
    destruct (backspace_count (fst (backspace (backspaces k st))))
      as [_ Hret].
    repeat split.
    + rewrite Hlen, IH1. lia.
    + rewrite Hret, Hlen, IH1.
      destruct (code_point_length (buffer st) - k)%nat eqn:E.
      * symmetry. apply Nat.ltb_ge. lia.
      * cbn [Nat.pred]. destruct n.
        -- symmetry. apply Nat.ltb_ge. lia.
        -- symmetry. apply Nat.ltb_lt. lia.
    + destruct (backspace_cases (backspaces k st))
        as [[_ Hbs] | (front & last & _ & Hbs & _)]; rewrite Hbs;
        cbn [fst set_buffer buffer]; [ exact IH3 | ].
      rewrite IH3. reflexivity.
Qed.

(** X10. [backspace] undoes the IME input of one code point: on a buffer
    without unpaired surrogates, input of a text that is a single code
    point followed by [backspace] gives the buffer back, and [backspace]
    answers true. *)
Theorem backspace_undoes_input (compositionTimeout : Z) (input : jsstring)
    (now : Z) (st : CompositionState) :
  isWellFormed (buffer st) = true ->
  spread input = [input] ->
  buffer (fst (backspace
                 (fst (process compositionTimeout input true now st))))
    = buffer st /\
  snd (backspace (fst (process compositionTimeout input true now st)))
    = true.
Proof.
  intros Hwf Hch.
  pose proof (spread_snoc _ _ Hwf Hch) as Hsp.
  cbn [process handleIMEInput fst].
  rewrite (backspace_nonempty _ (spread (buffer st)) input)
    by exact Hsp.
  cbn [fst snd set_buffer buffer]. split; [ apply join_spread | reflexivity ].
Qed.

Lemma backspace_undoes_input_witness :
  buffer (fst (backspace
                 (fst (process 50 [0xD83D; 0xDE00] true 9
                         (mkState true [0x61; 0x4E2D] 0 (Some 50))))))
    = [0x61; 0x4E2D].
Proof.
  apply (backspace_undoes_input 50 [0xD83D; 0xDE00] 9
           (mkState true [0x61; 0x4E2D] 0 (Some 50))); reflexivity.
Defined.

(** ** More on the proxy *)

Section Routing.

Lemma toString_ascii_bytes (data : bytes) :
  forallb (fun b => b <? 0x80) data = true -> toString data = data.
Proof.
  induction data as [ | b data IH]; intros H; [ reflexivity | ].
  cbn [forallb] in H. apply andb_true_iff in H. destruct H as [Hb H].
  cbn [toString]. rewrite Hb, IH by exact H. reflexivity.
Qed.

(** What the sinks do for a live proxy: one write per emission. *)
Lemma deliver (out : list emission) :
  forall (st : CompositionState) (p : TerminalIMEProxy),
  isDestroyed p = false ->
  sinks out (set_compositionBuffer st p)
  = set_pty_written (pty_written p ++ map emission_text out)
      (set_compositionBuffer st p).
Proof.
  unfold sinks.
  induction out as [ | e out IH]; intros st p Hd.
  - cbn. rewrite app_nil_r. now destruct p.
  - cbn [fold_left map].
    assert (Hsink : sink e (set_compositionBuffer st p)
                    = set_compositionBuffer st
                        (set_pty_written
                           (pty_written p ++ [emission_text e]) p)).
    { destruct e; cbn [sink emission_text]; unfold sendToApp;
        cbn [isDestroyed set_compositionBuffer]; rewrite Hd; reflexivity. }
    rewrite Hsink, IH by exact Hd.
    cbn [pty_written set_pty_written]. rewrite <- app_assoc. reflexivity.
Qed.

Lemma buffer_flush_alive (p : TerminalIMEProxy) :
  isDestroyed p = false ->
  buffer_flush p
  = set_pty_written (pty_written p ++ pending p)
      (set_compositionBuffer (fst (flush (compositionBuffer p))) p).
Proof.
  intros Hd. unfold buffer_flush.
  pose proof (flush_emits (compositionBuffer p)) as Hout.
  destruct (flush (compositionBuffer p)) as [st out]. cbn [fst snd] in *.
  rewrite deliver by exact Hd. subst out. unfold pending.
  now destruct (buffer (compositionBuffer p)).
Qed.

Lemma buffer_process_alive (input : jsstring) (isIME : bool) (now : Z)
    (p : TerminalIMEProxy) :
  isDestroyed p = false ->
  buffer_process input isIME now p
  = set_pty_written
      (pty_written p
       ++ map emission_text
            (snd (CompositionBuffer.process (Proxy.compositionTimeout p)
                    input isIME now (compositionBuffer p))))
      (set_compositionBuffer
         (fst (CompositionBuffer.process (Proxy.compositionTimeout p)
                 input isIME now (compositionBuffer p))) p).
Proof.
  intros Hd. unfold buffer_process.
  destruct (CompositionBuffer.process _ input isIME now _) as [st out].
  now apply deliver.
Qed.

(** The three kinds of chunk [handleSpecialKeys] tells apart. *)
Lemma handleSpecialKeys_flush_key (data : bytes) (p : TerminalIMEProxy) :
  is_flush_key data = true ->
  handleSpecialKeys data p = (flush_and_forward data p, true).
Proof.
  unfold is_flush_key, handleSpecialKeys, single_byte, first_byte.
  destruct data as [ | b [ | b' r]]; intros H.
  - discriminate.
  - destruct (b =? 0x03); [ reflexivity | ].
    destruct (b =? 0x04); [ reflexivity | ].
    destruct (Z.eqb_spec b 0x7F) as [-> | _]; [ discriminate | ].
    destruct (Z.eqb_spec b 0x08) as [-> | _]; [ discriminate | ].
    destruct (b =? 0x0D); [ reflexivity | ].
    destruct (b =? 0x0A); [ reflexivity | ].
    destruct (b =? 0x1B); [ reflexivity | discriminate ].
  - cbn in H |- *. now rewrite H.
Qed.

Lemma handleSpecialKeys_other (data : bytes) (p : TerminalIMEProxy) :
  is_flush_key data = false -> is_backspace_key data = false ->
  handleSpecialKeys data p = (p, false).
Proof.
  unfold is_flush_key, is_backspace_key, handleSpecialKeys.
  intros Hf Hb.
  repeat (apply orb_false_iff in Hf; destruct Hf as [Hf ?E]).
  rewrite Hf, E, E0, E1, E2, Hb. reflexivity.
Qed.

(** A chunk of IME input is no special key. *)
Lemma ime_chunk_not_special (data : bytes) :
  ime_chunk data = true ->
  is_flush_key data = false /\ is_backspace_key data = false /\
  isIMEInput (toString data) = true.
Proof.
  unfold ime_chunk. intros H. apply andb_true_iff in H.
  destruct H as [Hesc Hime]. apply negb_true_iff in Hesc.
  split; [ | split; [ | exact Hime ] ].
  - unfold is_flush_key. rewrite Hesc.
    destruct data as [ | b [ | b' r]]; try reflexivity.
    cbn [single_byte].
    destruct (Z.eqb_spec b 0x03) as [-> | _]; [ discriminate | ].
    destruct (Z.eqb_spec b 0x04) as [-> | _]; [ discriminate | ].
    destruct (Z.eqb_spec b 0x0D) as [-> | _]; [ discriminate | ].
    destruct (Z.eqb_spec b 0x0A) as [-> | _]; [ discriminate | ].
    reflexivity.
  - unfold is_backspace_key.
    destruct data as [ | b [ | b' r]]; try reflexivity.
    cbn [single_byte].
    destruct (Z.eqb_spec b 0x7F) as [-> | _]; [ discriminate | ].
    destruct (Z.eqb_spec b 0x08) as [-> | _]; [ discriminate | ].
    reflexivity.
Qed.

Lemma on_stdin_flush_key (data : bytes) (now : Z) (p : TerminalIMEProxy) :
  isDestroyed p = false -> is_flush_key data = true ->
  on_stdin_data data now p
  = set_pty_written (pty_written p ++ pending p ++ [toString data])
      (set_compositionBuffer (fst (flush (compositionBuffer p))) p).
Proof.
  intros Hd Hkey. unfold on_stdin_data.
  rewrite Hd, handleSpecialKeys_flush_key by exact Hkey.
  unfold flush_and_forward. rewrite buffer_flush_alive by exact Hd.
  unfold sendToApp. cbn [isDestroyed set_pty_written set_compositionBuffer].
  rewrite Hd. cbn. now rewrite <- app_assoc.
Qed.

Lemma on_stdin_other (data : bytes) (now : Z) (p : TerminalIMEProxy) :
  isDestroyed p = false ->
  is_flush_key data = false -> is_backspace_key data = false ->
  on_stdin_data data now p
  = buffer_process (toString data) (isIMEInput (toString data)) now p.
Proof.
  intros Hd Hf Hb. unfold on_stdin_data.
  now rewrite Hd, handleSpecialKeys_other.
Qed.

End Routing.

(** X11. On Ctrl+C, Ctrl+D, Enter and any chunk that starts with ESC, a
    live proxy first writes what the buffer holds (if anything) and then
    the decoded chunk, in two writes in that order; the buffer is left
    empty, its timer cancelled and the flag reset; nothing goes to
    stdout. *)
Theorem flush_keys_flush_first (data : bytes) (now : Z)
    (p : TerminalIMEProxy) :
  isDestroyed p = false ->
  is_flush_key data = true ->
  pty_written (on_stdin_data data now p)
    = pty_written p ++ pending p ++ [toString data] /\
  compositionBuffer (on_stdin_data data now p)
    = {| isComposing := false; buffer := [];
         lastInputTime := lastInputTime (compositionBuffer p);
         flushTimer := None |} /\
  stdout_written (on_stdin_data data now p) = stdout_written p.
Proof.
  intros Hd Hkey. rewrite on_stdin_flush_key by assumption.
  cbn [pty_written compositionBuffer stdout_written set_pty_written
       set_compositionBuffer].
  rewrite flush_state. repeat split.
Qed.

Lemma flush_keys_flush_first_witness :
  pty_written
    (on_stdin_data [0x1B; 0x5B; 0x41] 10
       (on_stdin_data [0xED; 0x95; 0x9C] 0 (construct None true)))
  = [[0xD55C]; [0x1B; 0x5B; 0x41]].
Proof.
  apply (flush_keys_flush_first [0x1B; 0x5B; 0x41] 10
           (on_stdin_data [0xED; 0x95; 0x9C] 0 (construct None true)));
    reflexivity.
Defined.

(** X12. A chunk of ASCII bytes other than a lone backspace passes through
    a live proxy byte for byte: it is written to the child as it is, after
    what the buffer held, and the buffer is empty afterwards.  (The buffer
    is taken in a state where non-empty means composing, as every state
    the proxy reaches is.) *)
Theorem ascii_chunk_forwarded (data : bytes) (now : Z)
    (p : TerminalIMEProxy) :
  isDestroyed p = false ->
  nonempty_composing (compositionBuffer p) ->
  forallb (fun b => b <? 0x80) data = true ->
  is_backspace_key data = false ->
  pty_written (on_stdin_data data now p)
    = pty_written p ++ pending p ++ [data] /\
  buffer (compositionBuffer (on_stdin_data data now p)) = [].
Proof.
  intros Hd Hinv Hascii Hbs.
  pose proof (toString_ascii_bytes data Hascii) as Hdec.
  destruct (is_flush_key data) eqn:Hkey.
  - rewrite on_stdin_flush_key by assumption.
    cbn [pty_written compositionBuffer set_pty_written
         set_compositionBuffer].
    rewrite flush_state, Hdec. split; reflexivity.
  - rewrite on_stdin_other by assumption.
    rewrite Hdec, isIMEInput_non_ascii.
    assert (Hna : has_non_ascii data = false).
    { apply has_non_ascii_false. intros c Hc.
      rewrite forallb_forall in Hascii. apply Z.ltb_lt. now apply Hascii. }
    rewrite Hna, buffer_process_alive by exact Hd.
    cbn [pty_written compositionBuffer set_pty_written
         set_compositionBuffer CompositionBuffer.process].
    unfold pending.
    destruct (buffer (compositionBuffer p)) as [ | c b] eqn:Hb.
    + rewrite handleRegularInput_passes by now right.
      cbn [fst snd map emission_text]. now rewrite Hb.
    + assert (Hc : isComposing (compositionBuffer p) = true).
      { apply Hinv. rewrite Hb. discriminate. }
      rewrite handleRegularInput_flushes
        by (try assumption; rewrite Hb; discriminate).
      rewrite flush_state, flush_emits, Hb. split; reflexivity.
Qed.

Lemma ascii_chunk_forwarded_witness :
  pty_written (on_stdin_data [0x6C; 0x73; 0x20] 3 (construct None true))
  = [[0x6C; 0x73; 0x20]].
Proof.
  apply (ascii_chunk_forwarded [0x6C; 0x73; 0x20] 3 (construct None true));
    try reflexivity.
  intros H. now contradiction H.
Defined.

Section Coalescing.

Lemma on_stdin_ime (data : bytes) (now : Z) (p : TerminalIMEProxy) :
  isDestroyed p = false -> ime_chunk data = true ->
  on_stdin_data data now p
  = set_compositionBuffer
      (fst (CompositionBuffer.process (Proxy.compositionTimeout p)
              (toString data) true now (compositionBuffer p))) p.
Proof.
  intros Hd Hime.
  destruct (ime_chunk_not_special data Hime) as (Hf & Hb & Hi).
  rewrite on_stdin_other, Hi, buffer_process_alive by assumption.
  cbn. rewrite app_nil_r. now destruct p.
Qed.

Lemma stdin_burst_buffered (chunks : list (bytes * Z)) :
  forall p : TerminalIMEProxy,
  isDestroyed p = false -> exited p = None ->
  forallb (fun chunk => ime_chunk (fst chunk)) chunks = true ->
  handle_all (stdin_burst chunks) p
  = set_compositionBuffer
      (fst (run (Proxy.compositionTimeout p) (ime_burst (decoded chunks))
              (compositionBuffer p))) p.
Proof.
  unfold handle_all.
  induction chunks as [ | chunk chunks IH]; intros p Hd He Hime.
  - cbn. now destruct p.
  - cbn [forallb] in Hime. apply andb_true_iff in Hime.
    destruct Hime as [Hchunk Hime].
    cbn [stdin_burst map fold_left]. fold (stdin_burst chunks).
    unfold handle at 2. rewrite He. cbn [dispatch].
    rewrite on_stdin_ime by assumption.
    rewrite IH by assumption.
    cbn [decoded ime_burst map run step fst snd compositionBuffer
         set_compositionBuffer Proxy.compositionTimeout].
    fold (decoded chunks). fold (ime_burst (decoded chunks)).
    destruct (CompositionBuffer.process _ _ true _ _) as [st1 out1].
    cbn [fst].
    destruct (run _ (ime_burst (decoded chunks)) st1) as [st2 out2].
    reflexivity.
Qed.

Lemma last_of_map {A B : Type} (f : A -> B) (l : list A) :
  forall d : A, List.last (map f l) (f d) = f (List.last l d).
Proof.
  induction l as [ | a l IH]; intros d; [ reflexivity | ].
  destruct l as [ | b l]; [ reflexivity | ].
  change (List.last (map f (a :: b :: l)) (f d))
    with (List.last (map f (b :: l)) (f d)).
  now rewrite IH.
Qed.

Lemma burst_text_decoded (chunks : list (bytes * Z)) :
  concat (map fst (decoded chunks)) = burst_text chunks.
Proof. unfold decoded, burst_text. now rewrite map_map. Qed.

Lemma isIMEInput_nonempty (input : jsstring) :
  isIMEInput input = true -> input <> [].
Proof. intros H ->. discriminate. Qed.

End Coalescing.

(** X13. Composition is coalesced.  A burst of chunks of IME input (chunks
    the classifier accepts and that do not start with ESC) writes nothing
    to the child while it lasts; when the flush timer then fires, the child
    receives one single write: what the buffer held before, followed by
    the decoded chunks in order.  Buffer, flag and timer are reset. *)
Theorem ime_burst_coalesced (chunk : bytes * Z) (chunks : list (bytes * Z))
    (p : TerminalIMEProxy) :
  isDestroyed p = false -> exited p = None ->
  forallb (fun chunk => ime_chunk (fst chunk)) (chunk :: chunks) = true ->
  pty_written (handle_all (stdin_burst (chunk :: chunks)) p)
    = pty_written p /\
  pty_written (handle_all (stdin_burst (chunk :: chunks) ++ [flush_timer]) p)
    = pty_written p
      ++ [buffer (compositionBuffer p) ++ burst_text (chunk :: chunks)] /\
  compositionBuffer
    (handle_all (stdin_burst (chunk :: chunks) ++ [flush_timer]) p)
    = {| isComposing := false; buffer := [];
         lastInputTime := snd (List.last chunks chunk);
         flushTimer := None |}.
Proof.
  intros Hd He Hime.
  pose proof (stdin_burst_buffered (chunk :: chunks) p Hd He Hime) as Hburst.
  change (decoded (chunk :: chunks))
    with ((toString (fst chunk), snd chunk) :: decoded chunks) in Hburst.
  rewrite ime_burst_state in Hburst.
  change ((toString (fst chunk), snd chunk) :: decoded chunks)
    with (decoded (chunk :: chunks)) in Hburst.
  rewrite burst_text_decoded in Hburst.
  assert (Hlast : snd (List.last (decoded chunks)
                         (toString (fst chunk), snd chunk))
                  = snd (List.last chunks chunk)).
  { unfold decoded.
    change (toString (fst chunk), snd chunk)
      with ((fun c : bytes * Z => (toString (fst c), snd c)) chunk).
    rewrite last_of_map. reflexivity. }
  rewrite Hlast in Hburst.
  assert (Hne : buffer (compositionBuffer p) ++ burst_text (chunk :: chunks)
                <> []).
  { cbn [forallb] in Hime. apply andb_true_iff in Hime.
    destruct Hime as [Hchunk _].
    destruct (ime_chunk_not_special _ Hchunk) as (_ & _ & Hi).
    apply isIMEInput_nonempty in Hi.
    unfold burst_text. cbn [map concat].
    destruct (toString (fst chunk)); [ contradiction | ].
    destruct (buffer (compositionBuffer p)); discriminate. }
  split; [ now rewrite Hburst | ].
  unfold handle_all in *. rewrite fold_left_app, Hburst.
  cbn [fold_left]. unfold handle.
  cbn [exited set_compositionBuffer]. rewrite He. cbn [dispatch].
  unfold on_flush_timer, timer_fires.
  cbn [compositionBuffer set_compositionBuffer flushTimer].
  set (st := {| isComposing := true;
                buffer := buffer (compositionBuffer p)
                          ++ burst_text (chunk :: chunks);
                lastInputTime := snd (List.last chunks chunk);
                flushTimer :=
                  Some (snd (List.last chunks chunk)
                        + setTimeout_delay (Proxy.compositionTimeout p)) |}).
  pose proof (flush_state st) as Hfs. pose proof (flush_emits st) as Hfe.
  destruct (flush st) as [st' out]. cbn [fst snd] in Hfs, Hfe.
  subst st' out.
  change (set_compositionBuffer ?a (set_compositionBuffer ?b p))
    with (set_compositionBuffer a p).
  rewrite deliver by exact Hd.
  cbn [pty_written compositionBuffer set_pty_written set_compositionBuffer
       buffer lastInputTime st].
  destruct (buffer (compositionBuffer p) ++ burst_text (chunk :: chunks));
    [ contradiction | ].
  split; reflexivity.
Qed.

Lemma ime_burst_coalesced_witness :
  pty_written
    (handle_all
       (stdin_burst [([0xE6; 0x97; 0xA5], 0); ([0xE6; 0x9C; 0xAC], 8)]
        ++ [flush_timer])
       (construct None true))
  = [[0x65E5; 0x672C]].
Proof.
  apply (ime_burst_coalesced ([0xE6; 0x97; 0xA5], 0)
           [([0xE6; 0x9C; 0xAC], 8)] (construct None true));
    reflexivity.
Defined.

Section EventLoop.

Lemma handleSpecialKeys_backspace (data : bytes) (p : TerminalIMEProxy) :
  is_backspace_key data = true ->
  handleSpecialKeys data p
  = (let '(st, handled) := backspace (compositionBuffer p) in
     let p' := set_compositionBuffer st p in
     (if negb handled then sendToApp (toString data) p' else p', true)).
Proof.
  unfold is_backspace_key, handleSpecialKeys, single_byte.
  destruct data as [ | b [ | b' r]]; intros H; try discriminate.
  destruct (Z.eqb_spec b 0x7F) as [-> | _]; [ reflexivity | ].
  destruct (Z.eqb_spec b 0x08) as [-> | _]; [ reflexivity | discriminate ].
Qed.

(** Whatever the chunk, the stdin listener of a live proxy changes the
    buffer and appends writes to the child, nothing else. *)
Lemma on_stdin_data_shape (data : bytes) (now : Z) (p : TerminalIMEProxy) :
  isDestroyed p = false ->
  exists (st : CompositionState) (ws : list jsstring),
    on_stdin_data data now p
    = set_pty_written (pty_written p ++ ws) (set_compositionBuffer st p).
Proof.
  intros Hd.
  destruct (is_flush_key data) eqn:Hf;
    [ | destruct (is_backspace_key data) eqn:Hb ].
  - rewrite on_stdin_flush_key by assumption. eauto.
  - unfold on_stdin_data.
    rewrite Hd, handleSpecialKeys_backspace by exact Hb.
    destruct (backspace (compositionBuffer p)) as [st [ | ]]; cbn.
    + exists st, []. rewrite app_nil_r. now destruct p.
    + exists st, [toString data]. unfold sendToApp.
      cbn [isDestroyed set_compositionBuffer]. now rewrite Hd.
  - rewrite on_stdin_other, buffer_process_alive by assumption. eauto.
Qed.

Lemma on_flush_timer_alive (p : TerminalIMEProxy) :
  isDestroyed p = false ->
  on_flush_timer p
  = set_pty_written
      (pty_written p
       ++ map emission_text (snd (timer_fires (compositionBuffer p))))
      (set_compositionBuffer (fst (timer_fires (compositionBuffer p))) p).
Proof.
  intros Hd. unfold on_flush_timer.
  destruct (timer_fires (compositionBuffer p)) as [st out].
  now apply deliver.
Qed.

Lemma concat_pending (p : TerminalIMEProxy) :
  concat (pending p) = buffer (compositionBuffer p).
Proof.
  unfold pending. destruct (buffer (compositionBuffer p)); cbn;
    now rewrite ?app_nil_r.
Qed.

Lemma flushTimer_cancel (st : CompositionState) :
  flushTimer (cancel_timer st) = None.
Proof.
  unfold cancel_timer. now destruct (flushTimer st) eqn:E.
Qed.

(** One event that keeps the text keeps the proxy alive and hands on
    whatever was typed. *)
Lemma handle_conserves (e : event) (p : TerminalIMEProxy) :
  isDestroyed p = false -> exited p = None ->
  nonempty_composing (compositionBuffer p) ->
  keeps_text e = true ->
  isDestroyed (handle e p) = false /\
  exited (handle e p) = None /\
  nonempty_composing (compositionBuffer (handle e p)) /\
  concat (pty_written (handle e p))
  ++ buffer (compositionBuffer (handle e p))
  = (concat (pty_written p) ++ buffer (compositionBuffer p)) ++ typed e.
Proof.
  intros Hd He Hinv Hkeep. unfold handle. rewrite He.
  destruct e as [data now | | data | | | | cols rows | ];
    try discriminate; cbn [dispatch typed keeps_text] in *.
  - apply negb_true_iff in Hkeep.
    destruct (is_flush_key data) eqn:Hf.
    + rewrite on_stdin_flush_key by assumption.
      cbn [isDestroyed exited pty_written compositionBuffer
           set_pty_written set_compositionBuffer].
      rewrite flush_state. cbn [buffer].
      repeat split; try assumption.
      * intros H. now contradiction H.
      * rewrite !concat_app, concat_pending. cbn [concat].
        now rewrite !app_nil_r, app_assoc.
    + rewrite on_stdin_other, buffer_process_alive by assumption.
      cbn [isDestroyed exited pty_written compositionBuffer
           set_pty_written set_compositionBuffer].
      pose proof (step_nonempty_composing (Proxy.compositionTimeout p)
                    (Process (toString data) (isIMEInput (toString data)) now)
                    _ Hinv) as Hinv'.
      pose proof (step_conserves (Proxy.compositionTimeout p)
                    (Process (toString data) (isIMEInput (toString data)) now)
                    _ Hinv eq_refl) as Hcons.
      cbn [step op_input] in Hinv', Hcons.
      repeat split; try assumption.
      rewrite concat_app, <- !app_assoc. f_equal. exact Hcons.
  - rewrite on_flush_timer_alive by assumption.
    cbn [isDestroyed exited pty_written compositionBuffer
         set_pty_written set_compositionBuffer].
    pose proof (step_nonempty_composing (Proxy.compositionTimeout p)
                  TimerFires _ Hinv) as Hinv'.
    pose proof (step_conserves (Proxy.compositionTimeout p)
                  TimerFires _ Hinv eq_refl) as Hcons.
    cbn [step op_input] in Hinv', Hcons.
    repeat split; try assumption.
    rewrite concat_app, <- !app_assoc. f_equal. exact Hcons.
  - unfold on_pty_data. rewrite Hd. cbn. rewrite app_nil_r.
    repeat split; assumption.
  - unfold on_SIGINT. rewrite app_nil_r. repeat split; assumption.
  - unfold on_resize. rewrite Hd. cbn. rewrite app_nil_r.
    repeat split; assumption.
Qed.

End EventLoop.

(** X14. Nothing typed is lost, doubled or reordered on its way to the
    child.  For a live proxy (buffer in a state where non-empty means
    composing) and any sequence of events without a lone backspace and
    without teardown (stdin chunks of any kind, the flush timer firing,
    child output, resizes, SIGINT), all the writes to the child in order,
    followed by what the buffer still holds, are the writes made before,
    the text buffered before, and the decoded stdin chunks in the order
    read. *)
Theorem typed_text_reaches_child (es : list event) (p : TerminalIMEProxy) :
  isDestroyed p = false -> exited p = None ->
  nonempty_composing (compositionBuffer p) ->
  forallb keeps_text es = true ->
  concat (pty_written (handle_all es p))
  ++ buffer (compositionBuffer (handle_all es p))
  = concat (pty_written p) ++ buffer (compositionBuffer p)
    ++ typed_text es.
Proof.
  unfold handle_all. revert p.
  induction es as [ | e es IH]; intros p Hd He Hinv Hkeep.
  - unfold typed_text. cbn. now rewrite app_nil_r.
  - cbn [forallb] in Hkeep. apply andb_true_iff in Hkeep.
    destruct Hkeep as [Hk Hkeep].
    destruct (handle_conserves e p Hd He Hinv Hk) as (Hd' & He' & Hinv' & Hc).
    cbn [fold_left]. rewrite IH by assumption.
    rewrite app_assoc, Hc. unfold typed_text. cbn [map concat].
    now rewrite <- !app_assoc.
Qed.

Lemma typed_text_reaches_child_witness :
  concat
    (pty_written
       (handle_all [stdin_data [0x61] 0; stdin_data [0xE3; 0x81; 0x82] 5;
                    stdin_data [0x0D] 9; stdin_data [0xE4; 0xB8; 0xAD] 20]
          (construct None true)))
  ++ buffer
       (compositionBuffer
          (handle_all [stdin_data [0x61] 0; stdin_data [0xE3; 0x81; 0x82] 5;
                       stdin_data [0x0D] 9; stdin_data [0xE4; 0xB8; 0xAD] 20]
             (construct None true)))
  = [0x61; 0x3042; 0x0D; 0x4E2D].
Proof.
  apply (typed_text_reaches_child
           [stdin_data [0x61] 0; stdin_data [0xE3; 0x81; 0x82] 5;
            stdin_data [0x0D] 9; stdin_data [0xE4; 0xB8; 0xAD] 20]
           (construct None true)); try reflexivity.
  intros H. now contradiction H.
Defined.

Section Teardown.

Lemma destroy_alive (p : TerminalIMEProxy) :
  isDestroyed p = false ->
  destroy p
  = set_pty_killed true
      ((if stdin_isTTY p then set_stdin_rawMode false else fun q => q)
         (set_compositionBuffer
            (CompositionBuffer.destroy (compositionBuffer p))
            (set_isDestroyed true p))).
Proof.
  intros Hd. unfold destroy. rewrite Hd.
  cbn [stdin_isTTY set_compositionBuffer set_isDestroyed].
  now destruct (stdin_isTTY p).
Qed.

Lemma destroy_teardown_safe (p : TerminalIMEProxy) :
  teardown_safe p ->
  teardown_safe (destroy p) /\ isDestroyed (destroy p) = true.
Proof.
  intros (H1 & H2 & H3). split; [ | apply isDestroyed_destroy ].
  destruct (isDestroyed p) eqn:Hd.
  - rewrite destroy_destroyed by exact Hd.
    unfold teardown_safe. rewrite Hd. auto.
  - destruct (H3 eq_refl) as [Hraw Hkill].
    rewrite destroy_alive by exact Hd.
    unfold teardown_safe.
    destruct (stdin_isTTY p) eqn:Htty;
      cbn [exited isDestroyed stdin_rawMode pty_killed compositionBuffer
           stdin_isTTY set_pty_killed set_stdin_rawMode
           set_compositionBuffer set_isDestroyed];
      unfold CompositionBuffer.destroy;
      rewrite flushTimer_cancel;
      repeat split; auto; try discriminate; congruence.
Qed.

Lemma process_exit_teardown_safe (code : Z) (p : TerminalIMEProxy) :
  teardown_safe p -> teardown_safe (process_exit code p).
Proof.
  intros H. destruct (destroy_teardown_safe p H) as [(H1 & H2 & H3) Hd].
  unfold process_exit, teardown_safe.
  cbn [exited isDestroyed stdin_rawMode pty_killed compositionBuffer
       stdin_isTTY set_exited].
  split; [ intros _; exact Hd | ].
  split; [ intros _; exact (H2 Hd) | intros E; congruence ].
Qed.

(** The listeners that neither destroy nor exit keep the host as it
    is. *)
Lemma alive_frame (p : TerminalIMEProxy) (st : CompositionState)
    (ws : list jsstring) :
  isDestroyed p = false ->
  teardown_safe p ->
  teardown_safe (set_pty_written ws (set_compositionBuffer st p)).
Proof.
  intros Hd (H1 & H2 & H3). unfold teardown_safe.
  cbn [exited isDestroyed stdin_rawMode pty_killed compositionBuffer
       stdin_isTTY set_pty_written set_compositionBuffer].
  split; [ exact H1 | ].
  split; [ intros E; congruence | exact H3 ].
Qed.

Lemma teardown_safe_same (p q : TerminalIMEProxy) :
  exited q = exited p -> isDestroyed q = isDestroyed p ->
  stdin_rawMode q = stdin_rawMode p -> pty_killed q = pty_killed p ->
  stdin_isTTY q = stdin_isTTY p ->
  compositionBuffer q = compositionBuffer p ->
  teardown_safe p -> teardown_safe q.
Proof.
  unfold teardown_safe. intros -> -> -> -> -> ->. trivial.
Qed.

Lemma dispatch_teardown_safe (e : event) (p : TerminalIMEProxy) :
  teardown_safe p -> teardown_safe (dispatch e p).
Proof.
  intros Hsafe.
  destruct e as [data now | | data | code sig | | | cols rows | ];
    cbn [dispatch].
  - destruct (isDestroyed p) eqn:Hd.
    + unfold on_stdin_data. now rewrite Hd.
    + destruct (on_stdin_data_shape data now p Hd) as (st & ws & ->).
      now apply alive_frame.
  - destruct (isDestroyed p) eqn:Hd.
    + pose proof Hsafe as (H1 & H2 & H3).
      destruct (H2 Hd) as (Hraw & Hkill & Htimer).
      unfold on_flush_timer, timer_fires. rewrite Htimer.
      rewrite sinks_destroyed by exact Hd.
      now apply teardown_safe_same with p.
    + rewrite on_flush_timer_alive by exact Hd. now apply alive_frame.
  - unfold on_pty_data. destruct (isDestroyed p) eqn:Hd; [ exact Hsafe | ].
    cbn [negb]. now apply teardown_safe_same with p.
  - unfold on_pty_exit. apply process_exit_teardown_safe.
    now apply destroy_teardown_safe.
  - exact Hsafe.
  - unfold on_SIGTERM. apply process_exit_teardown_safe.
    now apply destroy_teardown_safe.
  - unfold on_resize. destruct (isDestroyed p) eqn:Hd; [ exact Hsafe | ].
    cbn [negb]. now apply teardown_safe_same with p.
  - now apply destroy_teardown_safe.
Qed.

End Teardown.

(** X15. Teardown is safe on every path.  Whatever events a proxy meets
    from its construction on: the process never exits without [destroy]
    having run; once [destroy] has run, stdin is out of raw mode, the
    child is killed and no flush timer is left armed; until then stdin is
    in raw mode exactly when it is a TTY and the child is not killed. *)
Theorem teardown_is_safe (timeout : option Z) (isTTY : bool)
    (es : list event) :
  teardown_safe (handle_all es (construct timeout isTTY)).
Proof.
  assert (Hinit : teardown_safe (construct timeout isTTY)).
  { unfold teardown_safe. cbn. repeat split; congruence. }
  revert Hinit. generalize (construct timeout isTTY) as p.
  unfold handle_all.
  induction es as [ | e es IH]; intros p Hsafe; [ exact Hsafe | ].
  cbn [fold_left]. apply IH. unfold handle.
  destruct (exited p); [ exact Hsafe | now apply dispatch_teardown_safe ].
Qed.

Section ChildOutput.

Lemma tears_down_destroys (e : event) (p : TerminalIMEProxy) :
  tears_down e = true ->
  isDestroyed (dispatch e p) = true /\
  stdout_written (dispatch e p) = stdout_written p.
Proof.
  destruct (destroy_writes_nothing p) as [_ Hout].
  pose proof (isDestroyed_destroy p) as Hd.
  destruct e; try discriminate; intros _; cbn [dispatch].
  - unfold on_pty_exit, process_exit.
    rewrite !(destroy_destroyed (destroy p) Hd). now split.
  - unfold on_SIGTERM, process_exit.
    rewrite !(destroy_destroyed (destroy p) Hd). now split.
  - now split.
Qed.

Lemma passes_output (e : event) (p : TerminalIMEProxy) :
  isDestroyed p = false -> exited p = None -> tears_down e = false ->
  isDestroyed (dispatch e p) = false /\
  exited (dispatch e p) = None /\
  stdout_written (dispatch e p)
  = stdout_written p
    ++ match e with pty_data data => [data] | _ => [] end.
Proof.
  intros Hd He Hkeep.
  destruct e as [data now | | data | | | | cols rows | ];
    try discriminate; cbn [dispatch].
  - destruct (on_stdin_data_shape data now p Hd) as (st & ws & ->).
    cbn. now rewrite app_nil_r.
  - rewrite on_flush_timer_alive by exact Hd. cbn. now rewrite app_nil_r.
  - unfold on_pty_data. rewrite Hd. cbn. auto.
  - unfold on_SIGINT. now rewrite app_nil_r.
  - unfold on_resize. rewrite Hd. cbn. now rewrite app_nil_r.
Qed.

End ChildOutput.

(** X16. The output of the child reaches stdout unchanged, chunk by chunk
    and in order, up to the first teardown (exit of the child, SIGTERM,
    [destroy]); nothing else is ever written to stdout, and nothing at all
    after teardown. *)
Theorem child_output_passes_through (es : list event)
    (p : TerminalIMEProxy) :
  isDestroyed p = false -> exited p = None ->
  stdout_written (handle_all es p) = stdout_written p ++ child_output es.
Proof.
  unfold handle_all. revert p.
  induction es as [ | e es IH]; intros p Hd He.
  - cbn. now rewrite app_nil_r.
  - cbn [fold_left child_output]. unfold handle at 2. rewrite He.
    destruct (tears_down e) eqn:Ht.
    + destruct (tears_down_destroys e p Ht) as [Hd' Hout].
      destruct (fold_destroyed handle handle_destroyed es _ Hd')
        as (_ & _ & Hout').
      now rewrite Hout', Hout, app_nil_r.
    + destruct (passes_output e p Hd He Ht) as (Hd' & He' & Hout).
      rewrite IH, Hout by assumption.
      rewrite <- app_assoc. f_equal. now destruct e.
Qed.

Lemma child_output_passes_through_witness :
  stdout_written
    (handle_all [pty_data [0x3E; 0x20]; stdin_data [0x61] 3;
                 pty_data [0x61]; pty_exit 0 None; pty_data [0x62]]
       (construct None true))
  = [[0x3E; 0x20]; [0x61]].
Proof.
  apply (child_output_passes_through
           [pty_data [0x3E; 0x20]; stdin_data [0x61] 3;
            pty_data [0x61]; pty_exit 0 None; pty_data [0x62]]
           (construct None true)); reflexivity.
Defined.

(** X17. A composed character deleted before it is committed never reaches
    the child: after a chunk of IME input that is one code point and a
    backspace key (0x7F or 0x08), nothing has been written to the child
    and the buffer (taken without unpaired surrogates) is what it was
    before the two. *)
Theorem composed_then_deleted (data : bytes) (bs n1 n2 : Z)
    (p : TerminalIMEProxy) :
  isDestroyed p = false ->
  ime_chunk data = true ->
  isWellFormed (buffer (compositionBuffer p)) = true ->
  spread (toString data) = [toString data] ->
  bs = 0x7F \/ bs = 0x08 ->
  pty_written (on_stdin_data [bs] n2 (on_stdin_data data n1 p))
    = pty_written p /\
  buffer (compositionBuffer
            (on_stdin_data [bs] n2 (on_stdin_data data n1 p)))
    = buffer (compositionBuffer p).
Proof.
  intros Hd Hime Hwf Hch Hbs.
  assert (Hres : exists st,
    on_stdin_data [bs] n2 (on_stdin_data data n1 p)
    = set_compositionBuffer st p /\
    buffer st = buffer (compositionBuffer p)).
  { rewrite (on_stdin_ime data n1 p Hd Hime).
    assert (Hkey : is_backspace_key [bs] = true).
    { destruct Hbs as [-> | ->]; reflexivity. }
    unfold on_stdin_data.
    cbn [isDestroyed set_compositionBuffer]. rewrite Hd.
    rewrite handleSpecialKeys_backspace by exact Hkey.
    cbn [compositionBuffer set_compositionBuffer CompositionBuffer.process
         handleIMEInput fst].
    pose proof (spread_snoc _ _ Hwf Hch) as Hsp.
    match goal with
    | |- context [backspace ?S] =>
        rewrite (backspace_nonempty S
                   (spread (buffer (compositionBuffer p))) (toString data))
          by exact Hsp;
        exists (set_buffer (join (spread (buffer (compositionBuffer p)))) S)
    end.
    cbn [negb set_buffer buffer]. rewrite join_spread.
    split; reflexivity. }
  destruct Hres as (st & -> & Hbuf). split; [ reflexivity | exact Hbuf ].
Qed.

Lemma composed_then_deleted_witness :
  pty_written
    (on_stdin_data [0x7F] 5
       (on_stdin_data [0xC3; 0xB1] 0 (construct None true))) = [].
Proof.
  apply (composed_then_deleted [0xC3; 0xB1] 0x7F 0 5 (construct None true));
    try reflexivity.
  now left.
Defined.

Section CommandLine.

Lemma parse_flags_options (os : list option_word) :
  forall (tail : list jsstring) (debug : bool) (timeout : Z),
  parse_flags (render_options os ++ tail) debug timeout
  = parse_flags tail (fst (requested os debug timeout))
      (snd (requested os debug timeout)).
Proof.
  induction os as [ | o os IH]; intros tail debug timeout.
  - reflexivity.
  - destruct o as [long | long value]; cbn [requested].
    + rewrite <- IH. now destruct long.
    + rewrite <- IH. now destruct long.
Qed.

Lemma trim_start_white_space (ws s : jsstring) :
  forallb is_white_space ws = true ->
  trim_start (ws ++ s) = trim_start s.
Proof.
  induction ws as [ | c ws IH]; intros H; [ reflexivity | ].
  cbn [forallb] in H. apply andb_true_iff in H. destruct H as [Hc H].
  cbn [app trim_start]. rewrite Hc. now apply IH.
Qed.

Lemma parseInt10_signed (sign : code_unit) (ds rest : jsstring) :
  valid_integer ds = true ->
  rest = [] \/ (exists c r, rest = c :: r /\ is_digit c = false) ->
  sign = 0x2D \/ sign = 0x2B ->
  parseInt10_string (sign :: ds ++ rest)
  = Num ((if sign =? 0x2D then -1 else 1) * denotes ds).
Proof.
  unfold valid_integer. intros Hds Hrest Hsign.
  apply andb_true_iff in Hds. destruct Hds as [Hne Hds].
  pose proof (digits_prefix_app ds rest Hds Hrest) as Hprefix.
  destruct ds as [ | d ds]; [ discriminate | ].
  unfold parseInt10_string.
  destruct Hsign as [-> | ->]; cbn [trim_start];
    change (is_white_space 45) with false;
    change (is_white_space 43) with false; cbn [Z.eqb Pos.eqb];
    rewrite Hprefix, digits_value_denotes; reflexivity.
Qed.

End CommandLine.

(** X18. How [main] reads its command line.  Options ([--debug], [-d],
    [--timeout value], [-t value], in any number and order) are read up to
    the first word that is no option: that word is the command and all
    that follows it goes to the command untouched, options included.  The
    debug flag is set if a debug option occurs, the timeout is that of the
    last timeout option, or 50.  With options only, [main] exits with 1;
    with a help or version option before any command, with 0. *)
Theorem main_reads_options (os : list option_word) (command : jsstring)
    (rest : list jsstring) :
  (is_option command = false ->
   main (render_options os ++ command :: rest)
   = Construct {| Main.command := command; args := rest;
                  debug := fst (requested os false 50);
                  Main.compositionTimeout := snd (requested os false 50) |}) /\
  main (render_options os) = Exit 1 /\
  main (render_options os ++ str "--help" :: rest) = Exit 0 /\
  main (render_options os ++ str "-h" :: rest) = Exit 0 /\
  main (render_options os ++ str "--version" :: rest) = Exit 0 /\
  main (render_options os ++ str "-v" :: rest) = Exit 0.
Proof.
  unfold main. repeat split.
  - intros Hcmd.
    now rewrite parse_flags_options, parse_flags_command by exact Hcmd.
  - rewrite <- (app_nil_r (render_options os)), parse_flags_options.
    reflexivity.
  - now rewrite parse_flags_options.
  - now rewrite parse_flags_options.
  - now rewrite parse_flags_options.
  - now rewrite parse_flags_options.
Qed.

Lemma main_reads_options_witness :
  main [str "-d"; str "--timeout"; str "80"; str "claude"; str "--debug"]
  = Construct (mkOptions (str "claude") [str "--debug"] true 80).
Proof.
  apply (main_reads_options [opt_debug false; opt_timeout true (str "80")]
           (str "claude") [str "--debug"]).
  reflexivity.
Defined.

(** X19. The timeout option takes a sign: after optional white space, a
    minus sign before the digits gives the negative number, which [main]
    passes on as it is, and a plus sign gives the number; zero gives 50
    with either sign.  (Digits as for C7: up to 15 of them, alone or
    followed by text that does not start with a digit.) *)
Theorem timeout_option_signed (ws ds rest : jsstring) :
  forallb is_white_space ws = true ->
  valid_integer ds = true -> (length ds <= 15)%nat ->
  rest = [] \/ (exists c r, rest = c :: r /\ is_digit c = false) ->
  timeout_value (Some (ws ++ 0x2D :: ds ++ rest))
  = (if denotes ds =? 0 then 50 else - denotes ds) /\
  timeout_value (Some (ws ++ 0x2B :: ds ++ rest))
  = (if denotes ds =? 0 then 50 else denotes ds) /\
  timeout_value (Some (ws ++ ds ++ rest))
  = (if denotes ds =? 0 then 50 else denotes ds).
Proof.
  intros Hws Hds _ Hrest.
  assert (Htrim : forall s, parseInt10_string (ws ++ s) = parseInt10_string s).
  { intros s. unfold parseInt10_string.
    now rewrite trim_start_white_space. }
  unfold timeout_value, parseInt10. rewrite !Htrim.
  rewrite !parseInt10_signed by auto.
  rewrite parseInt10_digits by assumption.
  cbn [Z.eqb Pos.eqb or_default].
  repeat split.
  - destruct (Z.eqb_spec (denotes ds) 0) as [-> | Hnz]; [ reflexivity | ].
    destruct (Z.eqb_spec (-1 * denotes ds) 0); lia.
  - destruct (Z.eqb_spec (denotes ds) 0) as [-> | Hnz]; [ reflexivity | ].
    destruct (Z.eqb_spec (1 * denotes ds) 0); lia.
Qed.

Lemma timeout_option_signed_witness :
  timeout_value (Some (str " -25ms")) = -25.
Proof.
  assert (Hrest : str "ms" = []
                  \/ exists c r, str "ms" = c :: r /\ is_digit c = false).
  { right. exists 0x6D, (str "s"). split; reflexivity. }
  assert (Hlen : (length (str "25") <= 15)%nat) by (simpl; lia).
  exact (proj1 (timeout_option_signed (str " ") (str "25") (str "ms")
                  eq_refl eq_refl Hlen Hrest)).
Defined.
